(** * ARTinC: node creation and child lookup of an Adaptive Radix Tree

    A shallow embedding of [art.c]: the node layouts, [createRootNode],
    [initializeAdaptiveRadixTree], [findChildSSE], [findChildBinary] and
    [findChild], followed by the properties of child lookup.

    Conventions of the embedding.
    - C [int] values are integers of [Z].  The one [int] operation of the
      source that can overflow, [count - 1], is checked ([int_sub]); the
      loop counters and midpoints stay between -1 and the count.
    - A [char] is its value: [-128..127] where plain [char] is signed,
      [0..255] where it is unsigned.  The choice is the platform's, see
      [Platform].
    - A pointer is an address of [Z], [NULL] is [0]; allocated objects live
      in a store indexed by positive addresses.
    - A fixed-size C array is a list; reading outside it is undefined
      behaviour and is reported as such, see [outcome]. *)

From Stdlib Require Import ZArith Lia.
From stdpp Require Import base option list gmap.

Local Open Scope Z_scope.

(** ** Platform *)

(** What the C implementation leaves to the platform and the source depends
    on: the signedness of plain [char], and whether [__SSE2__] is defined
    (which selects the Node16 lookup inside [findChild]). *)
Record Platform := {
  char_signed : bool;
  have_sse2 : bool
}.

(** The platform the source names ([#ifdef __x86_64__]): plain [char] is
    signed and SSE2 is part of the base instruction set. *)
Definition x86_64 : Platform := {| char_signed := true; have_sse2 := true |}.


(** Conversion of an integer to [unsigned char]. *)
Definition to_uchar (z : Z) : Z := z mod 256.

(** Conversion of an integer to plain [char]. *)
Definition to_char (pf : Platform) (z : Z) : Z :=
  if char_signed pf then (z + 128) mod 256 - 128 else z mod 256.

(** The values a plain [char] can hold. *)
Definition is_char (pf : Platform) (c : Z) : Prop :=
  if char_signed pf then -128 <= c <= 127 else 0 <= c <= 255.

(** The byte (0..255) a [char] value stands for. *)
Definition byte_of_char (c : Z) : Z := c mod 256.

Definition MAX_PREFIX_LENGTH : Z := 32.

(** [#define EMPTY_KEY ((unsigned char)255)] *)
Definition EMPTY_KEY : Z := to_uchar 255.

(** ** Outcomes of a C computation *)

Inductive fault :=
  | OutOfBounds     (* array subscript outside the array *)
  | BadShift        (* shift count negative or too large, or result overflows *)
  | Overflow        (* signed arithmetic whose result [int] cannot hold *)
  | BadCast         (* object accessed through a struct type it does not have *)
  | InvalidPointer. (* dereference of NULL or of an unallocated address *)

Inductive outcome (A : Type) :=
  | Ret (a : A)
  | Undefined (f : fault)
  | OutOfFuel.
Arguments Ret {A} a.
Arguments Undefined {A} f.
Arguments OutOfFuel {A}.

#[global] Instance outcome_ret : MRet outcome := fun A a => Ret a.
#[global] Instance outcome_bind : MBind outcome := fun A B k m =>
  match m with
  | Ret a => k a
  | Undefined f => Undefined f
  | OutOfFuel => OutOfFuel
  end.

(** [a[i]] for a C array [a] and an [int] subscript [i]. *)
Definition arr_get {A : Type} (a : list A) (i : Z) : outcome A :=
  if i <? 0 then Undefined OutOfBounds
  else match a !! Z.to_nat i with
       | Some x => Ret x
       | None => Undefined OutOfBounds
       end.

(** ** Data structures *)

Inductive NodeType := NODE4 | NODE16 | NODE48 | NODE256 | LEAF.

(** The integer an enumerator stands for. *)
Definition NodeType_code (t : NodeType) : Z :=
  match t with
  | NODE4 => 0 | NODE16 => 1 | NODE48 => 2 | NODE256 => 3 | LEAF => 4
  end.

Definition NULL : Z := 0.

(** [struct Node]: the tag every node starts with.  The tag is stored as the
    integer of the enumeration, so a header can also hold a value that is no
    enumerator. *)
Record Node := { type : Z }.

Module Node4.
Record t := {
  node : Node;
  prefix : list Z;      (* char prefix[MAX_PREFIX_LENGTH] *)
  prefixLen : Z;
  keys : list Z;        (* char keys[4] *)
  children : list Z;    (* Node *children[4] *)
  count : Z
}.
End Node4.

Module Node16.
Record t := {
  node : Node;
  prefix : list Z;
  prefixLen : Z;
  keys : list Z;        (* char keys[16] *)
  children : list Z;    (* Node *children[16] *)
  count : Z
}.
End Node16.

Module Node48.
Record t := {
  node : Node;
  prefix : list Z;
  prefixLen : Z;
  keys : list Z;        (* unsigned char keys[256] *)
  children : list Z     (* Node *children[48] *)
}.
End Node48.

Module Node256.
Record t := {
  node : Node;
  prefix : list Z;
  prefixLen : Z;
  children : list Z     (* Node *children[256] *)
}.
End Node256.

Module LeafNode.
Record t := {
  node : Node;
  key : Z;              (* char *key *)
  value : Z             (* void *value *)
}.
End LeafNode.

Module ART.
Record t := {
  root : Z;             (* Node *root *)
  size : Z              (* size_t size *)
}.
End ART.

(** What an allocated address holds. *)
Inductive Object :=
  | ObjNode4 (n : Node4.t)
  | ObjNode16 (n : Node16.t)
  | ObjNode48 (n : Node48.t)
  | ObjNode256 (n : Node256.t)
  | ObjLeaf (l : LeafNode.t)
  | ObjART (a : ART.t)
  | ObjRaw.               (* malloc'ed and not yet written *)

(** [node->type] through a [Node *]: every node struct starts with its
    [Node] header; an [ART] or raw memory has none. *)
Definition header (o : Object) : outcome Node :=
  match o with
  | ObjNode4 n => Ret (Node4.node n)
  | ObjNode16 n => Ret (Node16.node n)
  | ObjNode48 n => Ret (Node48.node n)
  | ObjNode256 n => Ret (Node256.node n)
  | ObjLeaf l => Ret (LeafNode.node l)
  | ObjART _ | ObjRaw => Undefined BadCast
  end.

(** The casts [(Node4 * )node], [(Node16 * )node], ... followed by an access. *)
Definition as_Node4 (o : Object) : outcome Node4.t :=
  match o with ObjNode4 n => Ret n | _ => Undefined BadCast end.
Definition as_Node16 (o : Object) : outcome Node16.t :=
  match o with ObjNode16 n => Ret n | _ => Undefined BadCast end.
Definition as_Node48 (o : Object) : outcome Node48.t :=
  match o with ObjNode48 n => Ret n | _ => Undefined BadCast end.
Definition as_Node256 (o : Object) : outcome Node256.t :=
  match o with ObjNode256 n => Ret n | _ => Undefined BadCast end.

(** ** The allocator *)

(** The program state: the store, the next free address, and for each
    coming allocation request whether it will be granted (a request past the
    end of the list is refused). *)
Record State := {
  heap : gmap positive Object;
  brk : positive;
  grants : list bool
}.

Definition deref (s : State) (p : Z) : outcome Object :=
  match p with
  | Z.pos a => match heap s !! a with
               | Some o => Ret o
               | None => Undefined InvalidPointer
               end
  | _ => Undefined InvalidPointer
  end.

(** One allocation request: [NULL] when refused, else a fresh address
    holding [o]. *)
Definition allocate (o : Object) (s : State) : Z * State :=
  match grants s with
  | true :: g =>
      (Z.pos (brk s),
       {| heap := <[brk s := o]> (heap s); brk := Pos.succ (brk s); grants := g |})
  | _ :: g => (NULL, {| heap := heap s; brk := brk s; grants := g |})
  | [] => (NULL, s)
  end.

(** [*p = o] for an allocated [p]. *)
Definition store (p : Z) (o : Object) (s : State) : State :=
  match p with
  | Z.pos a => {| heap := <[a := o]> (heap s); brk := brk s; grants := grants s |}
  | _ => s
  end.

(** [malloc(sizeof(T))]: the memory is not initialised. *)
Definition malloc (s : State) : Z * State := allocate ObjRaw s.

(** A [Node4] whose every byte is zero. *)
Definition zeroed_Node4 : Node4.t := {|
  Node4.node := {| type := 0 |};
  Node4.prefix := replicate (Z.to_nat MAX_PREFIX_LENGTH) 0;
  Node4.prefixLen := 0;
  Node4.keys := replicate 4 0;
  Node4.children := replicate 4 NULL;
  Node4.count := 0
|}.

(** [calloc(1, sizeof(Node4))]: the memory is zero-filled. *)
Definition calloc_Node4 (s : State) : Z * State := allocate (ObjNode4 zeroed_Node4) s.

(** ** createRootNode *)

(** The body of [for (int i = 0; i < 4; i++) root->keys[i] = EMPTY_KEY;]:
    the [unsigned char] 255 is converted to the [char] element type. *)
Definition fill_keys (pf : Platform) (keys : list Z) : list Z :=
  foldl (fun ks i => <[i := to_char pf EMPTY_KEY]> ks) keys (seq 0 4).

Definition set_type (ty : NodeType) (n : Node4.t) : Node4.t :=
  {| Node4.node := {| type := NodeType_code ty |};
     Node4.prefix := Node4.prefix n; Node4.prefixLen := Node4.prefixLen n;
     Node4.keys := Node4.keys n; Node4.children := Node4.children n;
     Node4.count := Node4.count n |}.

Definition set_prefixLen (len : Z) (n : Node4.t) : Node4.t :=
  {| Node4.node := Node4.node n;
     Node4.prefix := Node4.prefix n; Node4.prefixLen := len;
     Node4.keys := Node4.keys n; Node4.children := Node4.children n;
     Node4.count := Node4.count n |}.

Definition set_keys (ks : list Z) (n : Node4.t) : Node4.t :=
  {| Node4.node := Node4.node n;
     Node4.prefix := Node4.prefix n; Node4.prefixLen := Node4.prefixLen n;
     Node4.keys := ks; Node4.children := Node4.children n;
     Node4.count := Node4.count n |}.

Definition createRootNode (pf : Platform) (s : State) : Z * State :=
  let '(root, s1) := calloc_Node4 s in
  if root =? NULL then (NULL, s1)
  else
    let n := zeroed_Node4 in
    let n := set_type NODE4 n in
    let n := set_prefixLen 0 n in
    let n := set_keys (fill_keys pf (Node4.keys n)) n in
    (root, store root (ObjNode4 n) s1).

(** ** initializeAdaptiveRadixTree *)

Definition initializeAdaptiveRadixTree (pf : Platform) (s : State) : Z * State :=
  let '(tree, s1) := malloc s in
  if tree =? NULL then (NULL, s1)
  else
    let '(root, s2) := createRootNode pf s1 in
    (tree, store tree (ObjART {| ART.root := root; ART.size := 0 |}) s2).

(** ** [int] arithmetic *)

Definition INT_MIN : Z := -2147483648.
Definition INT_MAX : Z := 2147483647.

(** [a - b] on [int]: undefined when the result is not an [int]. *)
Definition int_sub (a b : Z) : outcome Z :=
  if (a - b <? INT_MIN) || (INT_MAX <? a - b) then Undefined Overflow
  else Ret (a - b).

(** ** findChildSSE *)

(** A 128-bit vector as its 16 byte lanes, lane 0 first; a lane is the bit
    pattern (0..255) of the [char] it was loaded from. *)
Abbreviation m128i := (list Z) (only parsing).

Definition mm_set1_epi8 (b : Z) : m128i := replicate 16 (byte_of_char b).

(** [_mm_loadu_si128] from a [char] array: the first 16 elements. *)
Definition mm_loadu_si128 (a : list Z) : outcome m128i :=
  if (length a <? 16)%nat then Undefined OutOfBounds
  else Ret (byte_of_char <$> take 16 a).

Definition mm_cmpeq_epi8 (a b : m128i) : m128i :=
  zip_with (fun x y => if x =? y then 255 else 0) a b.

(** Bit [i] of the result is the top bit of lane [i]. *)
Fixpoint mm_movemask_epi8 (a : m128i) : Z :=
  match a with
  | [] => 0
  | x :: a' => Z.b2z (Z.testbit x 7) + 2 * mm_movemask_epi8 a'
  end.

(** [a << n] on [int] with [a >= 0]: undefined for a negative count, a count
    of the width or more, and a result that [int] cannot hold. *)
Definition int_shl (a n : Z) : outcome Z :=
  if (n <? 0) || (32 <=? n) then Undefined BadShift
  else if 2 ^ 31 <=? Z.shiftl a n then Undefined BadShift
  else Ret (Z.shiftl a n).

Fixpoint ctz_pos (p : positive) : Z :=
  match p with
  | xO p' => 1 + ctz_pos p'
  | _ => 0
  end.

(** [__builtin_ctz], called on a non-zero argument only. *)
Definition builtin_ctz (x : Z) : Z :=
  match x with
  | Z.pos p => ctz_pos p
  | _ => 0
  end.

Definition findChildSSE (node : Node16.t) (byte : Z) : outcome Z :=
  let key := mm_set1_epi8 byte in
  keys ← mm_loadu_si128 (Node16.keys node);
  let cmp := mm_cmpeq_epi8 key keys in
  last ← int_sub (Node16.count node) 1;
  mask ← int_shl 1 last;
  let bitfield := Z.land (mm_movemask_epi8 cmp) mask in
  if negb (bitfield =? 0) then
    let index := builtin_ctz bitfield in
    arr_get (Node16.children node) index
  else Ret NULL.

(** ** findChildBinary *)

(** The [while (low <= high)] loop; [fuel] bounds the number of iterations. *)
Fixpoint findChildBinary_loop (fuel : nat) (node : Node16.t) (byte : Z)
    (low high : Z) : outcome Z :=
  if low <=? high then
    match fuel with
    | O => OutOfFuel
    | S fuel' =>
        let mid := low + Z.quot (high - low) 2 in
        midByte ← arr_get (Node16.keys node) mid;
        if midByte <? byte then findChildBinary_loop fuel' node byte (mid + 1) high
        else if midByte >? byte then findChildBinary_loop fuel' node byte low (mid - 1)
        else arr_get (Node16.children node) mid
    end
  else Ret NULL.

Definition findChildBinary (node : Node16.t) (byte : Z) : outcome Z :=
  let low := 0 in
  high ← int_sub (Node16.count node) 1;
  findChildBinary_loop (Z.to_nat (Node16.count node)) node byte low high.

(** ** findChild *)

(** The [for (int i = 0; i < node4->count; i++)] loop of the Node4 branch. *)
Fixpoint findChild_loop4 (fuel : nat) (node4 : Node4.t) (byte : Z) (i : Z) : outcome Z :=
  if i <? Node4.count node4 then
    match fuel with
    | O => OutOfFuel
    | S fuel' =>
        k ← arr_get (Node4.keys node4) i;
        if k =? byte then arr_get (Node4.children node4) i
        else findChild_loop4 fuel' node4 byte (i + 1)
    end
  else Ret NULL.

(** [findChild(node, byte)], on the object [node] points to. *)
Definition findChild (pf : Platform) (node : Object) (byte : Z) : outcome Z :=
  hd ← header node;
  if type hd =? NodeType_code NODE4 then
    node4 ← as_Node4 node;
    findChild_loop4 (Z.to_nat (Node4.count node4)) node4 byte 0
  else if type hd =? NodeType_code NODE16 then
    node16 ← as_Node16 node;
    if have_sse2 pf then findChildSSE node16 byte
    else findChildBinary node16 byte
  else if type hd =? NodeType_code NODE48 then
    node48 ← as_Node48 node;
    childIndex ← arr_get (Node48.keys node48) byte;
    if negb (childIndex =? EMPTY_KEY) then arr_get (Node48.children node48) childIndex
    else Ret NULL
  else if type hd =? NodeType_code NODE256 then
    node256 ← as_Node256 node;
    arr_get (Node256.children node256) byte
  else Ret NULL.

(** [findChild] through a pointer into the store. *)
Definition findChild_at (pf : Platform) (s : State) (node : Z) (byte : Z) : outcome Z :=
  o ← deref s node;
  findChild pf o byte.

(** * Vocabulary of the properties *)

(** ** What a lookup among occupied slots has to return *)

(** [r] is the child of an occupied slot ([0 .. count-1]) whose key is
    [byte], or [NULL] when no occupied slot has that key. *)
Definition slot_lookup (keys children : list Z) (count byte r : Z) : Prop :=
  (exists i, 0 <= i < count /\ keys !! Z.to_nat i = Some byte
             /\ children !! Z.to_nat i = Some r)
  \/ (r = NULL /\ forall i, 0 <= i < count -> keys !! Z.to_nat i <> Some byte).

(** Two arrays agree on their first [count] slots. *)
Definition agree_below {A : Type} (count : Z) (a b : list A) : Prop :=
  forall i, 0 <= i < count -> a !! Z.to_nat i = b !! Z.to_nat i.

(** ** Sorted keys *)

(** The list is ascending (not necessarily strictly) in the order of [<=]
    on the values it holds. *)
Fixpoint ascending (l : list Z) : bool :=
  match l with
  | x :: l' =>
      match l' with
      | y :: _ => (x <=? y) && ascending l'
      | [] => true
      end
  | [] => true
  end.

(** The stored key bytes (0..255) of the occupied slots are ascending. *)
Definition sorted_as_bytes (n : Node16.t) : bool :=
  ascending (byte_of_char <$> take (Z.to_nat (Node16.count n)) (Node16.keys n)).

(** The stored [char] values of the occupied slots are ascending, in the
    order [findChildBinary] compares them with. *)
Definition sorted_as_chars (n : Node16.t) : bool :=
  ascending (take (Z.to_nat (Node16.count n)) (Node16.keys n)).

(** ** Well-formed nodes *)

(** A Node16 as the struct declares it, with an occupancy count within its
    capacity and [char] keys of the platform. *)
Definition Node16_shaped (pf : Platform) (n : Node16.t) : Prop :=
  length (Node16.keys n) = 16%nat /\ length (Node16.children n) = 16%nat
  /\ 0 <= Node16.count n <= 16
  /\ Forall (is_char pf) (Node16.keys n).

(** A Node48 as the spec describes it: each of the 256 table entries is the
    sentinel or the index of one of the 48 slots, and that slot holds a
    child. *)
Definition Node48_well_formed (n : Node48.t) : Prop :=
  type (Node48.node n) = NodeType_code NODE48
  /\ length (Node48.keys n) = 256%nat
  /\ length (Node48.children n) = 48%nat
  /\ Forall (fun e => e = EMPTY_KEY \/
               (0 <= e < 48 /\ exists c, Node48.children n !! Z.to_nat e = Some c /\ c <> NULL))
            (Node48.keys n).

(** A Node256 as the struct declares it. *)
Definition Node256_shaped (n : Node256.t) : Prop :=
  type (Node256.node n) = NodeType_code NODE256
  /\ length (Node256.children n) = 256%nat.

(** An inner node of one of the four classes, as the spec describes them:
    the tag of its class, arrays of the declared sizes, an occupancy count
    within the capacity, no key byte in two occupied slots, and the occupied
    keys of a Node16 ascending. *)
Definition well_formed (pf : Platform) (node : Object) : Prop :=
  match node with
  | ObjNode4 n =>
      type (Node4.node n) = NodeType_code NODE4
      /\ length (Node4.keys n) = 4%nat /\ length (Node4.children n) = 4%nat
      /\ 0 <= Node4.count n <= 4
      /\ NoDup (take (Z.to_nat (Node4.count n)) (Node4.keys n))
  | ObjNode16 n =>
      type (Node16.node n) = NodeType_code NODE16
      /\ Node16_shaped pf n
      /\ sorted_as_chars n = true
      /\ NoDup (take (Z.to_nat (Node16.count n)) (Node16.keys n))
  | ObjNode48 n => Node48_well_formed n
  | ObjNode256 n => Node256_shaped n
  | _ => False
  end.

(** The node holds [child] under the key [key] (a [char] value). *)
Definition stores (node : Object) (key child : Z) : Prop :=
  match node with
  | ObjNode4 n =>
      exists i, 0 <= i < Node4.count n
                /\ Node4.keys n !! Z.to_nat i = Some key
                /\ Node4.children n !! Z.to_nat i = Some child
  | ObjNode16 n =>
      exists i, 0 <= i < Node16.count n
                /\ Node16.keys n !! Z.to_nat i = Some key
                /\ Node16.children n !! Z.to_nat i = Some child
  | ObjNode48 n =>
      exists e, Node48.keys n !! Z.to_nat key = Some e /\ e <> EMPTY_KEY
                /\ Node48.children n !! Z.to_nat e = Some child
  | ObjNode256 n => Node256.children n !! Z.to_nat key = Some child /\ child <> NULL
  | _ => False
  end.

(** The node is a Node16 and [findChild] is compiled with [__SSE2__]. *)
Definition vectorized (pf : Platform) (node : Object) : bool :=
  match node with
  | ObjNode16 _ => have_sse2 pf
  | _ => false
  end.

(** ** The claim on the binary search, as a function of its input *)

(** The binary search finds key byte [b] (0..255), passed as a [char]. *)
Definition binary_search_finds (pf : Platform) (n : Node16.t) (b : Z) : Prop :=
  exists r, findChildBinary n (to_char pf b) = Ret r
            /\ slot_lookup (Node16.keys n) (Node16.children n) (Node16.count n)
                 (to_char pf b) r.

(** ** Example nodes and states *)

(** The prefix of a node without prefix, as [calloc] leaves it. *)
Definition no_prefix : list Z := replicate (Z.to_nat MAX_PREFIX_LENGTH) 0.

(** The empty Node4 that [createRootNode] builds. *)
Definition empty_root (pf : Platform) : Node4.t := {|
  Node4.node := {| type := NodeType_code NODE4 |};
  Node4.prefix := no_prefix; Node4.prefixLen := 0;
  Node4.keys := replicate 4 (to_char pf EMPTY_KEY);
  Node4.children := replicate 4 NULL;
  Node4.count := 0
|}.

(** A Node4 with two occupied slots, key bytes 5 and 7; its two other slots
    hold what [createRootNode] leaves in them on x86-64. *)
Definition node4_two_keys : Node4.t := {|
  Node4.node := {| type := NodeType_code NODE4 |};
  Node4.prefix := no_prefix; Node4.prefixLen := 0;
  Node4.keys := [5; 7; -1; -1];
  Node4.children := [11; 12; NULL; NULL];
  Node4.count := 2
|}.

(** A Node16 with two occupied slots: key bytes 1 and 2. *)
Definition node16_low_keys : Node16.t := {|
  Node16.node := {| type := NodeType_code NODE16 |};
  Node16.prefix := no_prefix; Node16.prefixLen := 0;
  Node16.keys := [1; 2] ++ replicate 14 0;
  Node16.children := [101; 102] ++ replicate 14 NULL;
  Node16.count := 2
|}.

(** A Node16 with three occupied slots: key bytes 1, 2 and 200, as an x86-64
    build stores them. *)
Definition node16_high_key : Node16.t := {|
  Node16.node := {| type := NodeType_code NODE16 |};
  Node16.prefix := no_prefix; Node16.prefixLen := 0;
  Node16.keys := (to_char x86_64 <$> [1; 2; 200]) ++ replicate 13 0;
  Node16.children := [101; 102; 103] ++ replicate 13 NULL;
  Node16.count := 3
|}.

(** The same three keys in the order of signed [char]: 200 is stored as -56
    and comes first. *)
Definition node16_signed_order : Node16.t := {|
  Node16.node := {| type := NodeType_code NODE16 |};
  Node16.prefix := no_prefix; Node16.prefixLen := 0;
  Node16.keys := (to_char x86_64 <$> [200; 1; 2]) ++ replicate 13 0;
  Node16.children := [103; 101; 102] ++ replicate 13 NULL;
  Node16.count := 3
|}.

(** A Node16 with two occupied slots: key bytes 0 and 5. *)
Definition node16_zero_key : Node16.t := {|
  Node16.node := {| type := NodeType_code NODE16 |};
  Node16.prefix := no_prefix; Node16.prefixLen := 0;
  Node16.keys := [0; 5] ++ replicate 14 0;
  Node16.children := [201; 202] ++ replicate 14 NULL;
  Node16.count := 2
|}.

(** A Node48 with one child, under key byte 200, in slot 5. *)
Definition node48_high_key : Node48.t := {|
  Node48.node := {| type := NodeType_code NODE48 |};
  Node48.prefix := no_prefix; Node48.prefixLen := 0;
  Node48.keys := <[200%nat := 5]> (replicate 256 EMPTY_KEY);
  Node48.children := <[5%nat := 105]> (replicate 48 NULL)
|}.

(** A Node256 with one child, under key byte 200. *)
Definition node256_high_key : Node256.t := {|
  Node256.node := {| type := NodeType_code NODE256 |};
  Node256.prefix := no_prefix; Node256.prefixLen := 0;
  Node256.children := <[200%nat := 300]> (replicate 256 NULL)
|}.

(** A leaf. *)
Definition leaf_example : LeafNode.t := {|
  LeafNode.node := {| type := NodeType_code LEAF |};
  LeafNode.key := 400; LeafNode.value := 500
|}.

(** An empty store in which the coming allocation requests are answered as
    [g] says. *)
Definition fresh_state (g : list bool) : State :=
  {| heap := ∅; brk := 1%positive; grants := g |}.

(** ** Vocabulary of the further properties *)

(** The node class subscripts a table with the query byte (Node48, Node256). *)
Definition indexed_by_key (node : Object) : bool :=
  match node with
  | ObjNode48 _ | ObjNode256 _ => true
  | _ => false
  end.

(** No occupied slot before the last occupied one holds [byte]. *)
Definition absent_before_last (n : Node16.t) (byte : Z) : bool :=
  forallb (fun k => negb (k =? byte))
          (take (Z.to_nat (Node16.count n - 1)) (Node16.keys n)).

(** Every allocated address lies below the next free one: what the
    allocator hands out is fresh. *)
Definition allocated_below_brk (s : State) : Prop :=
  forall (a : positive) (o : Object), heap s !! a = Some o -> (a < brk s)%positive.

(** The inputs on which the C of [findChild] has defined behaviour: any
    Node4, a Node16 on the binary path, a Node16 on the vectorized path with
    an occupied slot, a Node48 or Node256 with a key that is not negative. *)
Definition lookup_defined (pf : Platform) (node : Object) (key : Z) : Prop :=
  match node with
  | ObjNode16 n => have_sse2 pf = true -> 1 <= Node16.count n
  | ObjNode48 _ | ObjNode256 _ => 0 <= key
  | _ => True
  end.



(** A Node4 holding key byte 255 in its one occupied slot; the three empty
    slots hold the sentinel, as [createRootNode] leaves them. *)
Definition node4_key_255 (pf : Platform) : Node4.t := {|
  Node4.node := {| type := NodeType_code NODE4 |};
  Node4.prefix := no_prefix; Node4.prefixLen := 0;
  Node4.keys := replicate 4 (to_char pf EMPTY_KEY);
  Node4.children := [77; NULL; NULL; NULL];
  Node4.count := 1
|}.

(** A Node4 holding key byte 7 in both occupied slots. *)
Definition node4_duplicate_key : Node4.t := {|
  Node4.node := {| type := NodeType_code NODE4 |};
  Node4.prefix := no_prefix; Node4.prefixLen := 0;
  Node4.keys := [7; 7; -1; -1];
  Node4.children := [11; 12; NULL; NULL];
  Node4.count := 2
|}.

(** A Node4 whose count exceeds its four slots. *)
Definition node4_overfull : Node4.t := {|
  Node4.node := {| type := NodeType_code NODE4 |};
  Node4.prefix := no_prefix; Node4.prefixLen := 0;
  Node4.keys := [5; 6; 7; 8];
  Node4.children := [11; 12; 13; 14];
  Node4.count := 5
|}.

(** A Node16 with unsorted occupied keys 9, 3 and 6. *)
Definition node16_unsorted : Node16.t := {|
  Node16.node := {| type := NodeType_code NODE16 |};
  Node16.prefix := no_prefix; Node16.prefixLen := 0;
  Node16.keys := [9; 3; 6] ++ replicate 13 0;
  Node16.children := [101; 102; 103] ++ replicate 13 NULL;
  Node16.count := 3
|}.

(** A Node16 with no occupied slot. *)
Definition node16_empty : Node16.t := {|
  Node16.node := {| type := NodeType_code NODE16 |};
  Node16.prefix := no_prefix; Node16.prefixLen := 0;
  Node16.keys := replicate 16 0;
  Node16.children := replicate 16 NULL;
  Node16.count := 0
|}.

(** A store that already holds a leaf at address 1, in which the coming
    allocation requests are answered as [g] says. *)
Definition state_with_leaf (g : list bool) : State :=
  {| heap := {[ 1%positive := ObjLeaf leaf_example ]}; brk := 2%positive; grants := g |}.

(** * Properties *)

(** Reduction of the sequencing of outcomes, and of nothing else. *)
Ltac run_bind := cbn [mbind outcome_bind mret outcome_ret].

(** A concrete value lies in the range of [char]. *)
Ltac char_range := vm_compute; split; discriminate.

(** ** [int] arithmetic *)

Lemma int_sub_in_range (a b : Z) :
  -2147483648 <= a - b <= 2147483647 -> int_sub a b = Ret (a - b).
Proof.
  intros H. unfold int_sub, INT_MIN, INT_MAX.
  destruct (Z.ltb_spec (a - b) (-2147483648)); [lia|].
  destruct (Z.ltb_spec 2147483647 (a - b)); [lia|]. done.
Qed.

Lemma int_sub_overflow (a b : Z) :
  a - b < -2147483648 -> int_sub a b = Undefined Overflow.
Proof.
  intros H. unfold int_sub, INT_MIN.
  by destruct (Z.ltb_spec (a - b) (-2147483648)); [|lia].
Qed.

(** ** Array reads *)

Lemma arr_get_Ret {A : Type} (a : list A) (i : Z) (x : A) :
  0 <= i -> a !! Z.to_nat i = Some x -> arr_get a i = Ret x.
Proof.
  intros Hi Hx. unfold arr_get.
  destruct (Z.ltb_spec i 0); [lia|]. by rewrite Hx.
Qed.

Lemma arr_get_inv {A : Type} (a : list A) (i : Z) (x : A) :
  arr_get a i = Ret x -> 0 <= i /\ a !! Z.to_nat i = Some x.
Proof.
  unfold arr_get. destruct (Z.ltb_spec i 0); [discriminate|].
  destruct (a !! Z.to_nat i) eqn:E; [|discriminate].
  intros [= ->]. split; [lia|done].
Qed.

Lemma arr_get_in_bounds {A : Type} (a : list A) (i : Z) :
  0 <= i < Z.of_nat (length a) -> exists x, arr_get a i = Ret x /\ a !! Z.to_nat i = Some x.
Proof.
  intros Hi. destruct (lookup_lt_is_Some_2 a (Z.to_nat i)) as [x Hx]; [lia|].
  exists x. split; [|done]. apply arr_get_Ret; [lia|done].
Qed.

Lemma arr_get_negative {A : Type} (a : list A) (i : Z) :
  i < 0 -> arr_get a i = Undefined OutOfBounds.
Proof. intros Hi. unfold arr_get. by destruct (Z.ltb_spec i 0); [|lia]. Qed.

Lemma arr_get_agree {A : Type} (a b : list A) (i : Z) :
  a !! Z.to_nat i = b !! Z.to_nat i -> arr_get a i = arr_get b i.
Proof. intros H. unfold arr_get. by rewrite H. Qed.

Lemma agree_below_take {A : Type} (count : Z) (a b : list A) :
  take (Z.to_nat count) a = take (Z.to_nat count) b -> agree_below count a b.
Proof.
  intros H i Hi.
  rewrite <- (lookup_take_lt a (Z.to_nat count) (Z.to_nat i)) by lia.
  rewrite <- (lookup_take_lt b (Z.to_nat count) (Z.to_nat i)) by lia.
  by rewrite H.
Qed.

(** ** The Node4 scan *)

Section Node4_scan.
Variables (n : Node4.t) (byte : Z).
Hypothesis Hkeys : Node4.count n <= Z.of_nat (length (Node4.keys n)).
Hypothesis Hchildren : Node4.count n <= Z.of_nat (length (Node4.children n)).

(** From slot [i] on, the scan returns the child of the first occupied
    slot holding [byte]. *)
Lemma findChild_loop4_spec (fuel : nat) (i : Z) :
  0 <= i -> Node4.count n - i <= Z.of_nat fuel ->
  exists r, findChild_loop4 fuel n byte i = Ret r /\
    ((exists j, i <= j < Node4.count n
                /\ Node4.keys n !! Z.to_nat j = Some byte
                /\ Node4.children n !! Z.to_nat j = Some r
                /\ forall k, i <= k < j -> Node4.keys n !! Z.to_nat k <> Some byte)
     \/ (r = NULL /\ forall k, i <= k < Node4.count n ->
                       Node4.keys n !! Z.to_nat k <> Some byte)).
Proof.
  revert i. induction fuel as [|fuel IH]; intros i Hi Hfuel; simpl.
  - destruct (Z.ltb_spec i (Node4.count n)); [lia|].
    exists NULL. split; [done|]. right. split; [done|]. intros; lia.
  - destruct (Z.ltb_spec i (Node4.count n)) as [Hlt|Hge].
    + destruct (arr_get_in_bounds (Node4.keys n) i) as (k & -> & Hk); [lia|].
      simpl. destruct (Z.eqb_spec k byte) as [->|Hne].
      * destruct (arr_get_in_bounds (Node4.children n) i) as (c & -> & Hc); [lia|].
        exists c. split; [done|]. left. exists i. repeat split; try done; try lia.
      * destruct (IH (i + 1)) as (r & -> & Hr); [lia|lia|].
        exists r. split; [done|].
        destruct Hr as [(j & Hj & Hkj & Hcj & Hfirst)|[-> Hnone]].
        -- left. exists j. repeat split; try done; try lia.
           intros k' Hk'. destruct (Z.eq_dec k' i) as [->|].
           ++ rewrite Hk. congruence.
           ++ apply Hfirst. lia.
        -- right. split; [done|]. intros k' Hk'.
           destruct (Z.eq_dec k' i) as [->|].
           ++ rewrite Hk. congruence.
           ++ apply Hnone. lia.
    + exists NULL. split; [done|]. right. split; [done|]. intros; lia.
Qed.
End Node4_scan.

(** The scan reads nothing but the first [count] slots. *)
Lemma findChild_loop4_agree (n n' : Node4.t) (byte : Z) (fuel : nat) (i : Z) :
  Node4.count n' = Node4.count n ->
  agree_below (Node4.count n) (Node4.keys n') (Node4.keys n) ->
  agree_below (Node4.count n) (Node4.children n') (Node4.children n) ->
  0 <= i ->
  findChild_loop4 fuel n' byte i = findChild_loop4 fuel n byte i.
Proof.
  intros Hc Hk Hch. revert i. induction fuel as [|fuel IH]; intros i Hi; simpl.
  - by rewrite Hc.
  - rewrite Hc. destruct (Z.ltb_spec i (Node4.count n)); [|done].
    rewrite (arr_get_agree _ _ i (Hk i ltac:(lia))).
    rewrite (arr_get_agree _ _ i (Hch i ltac:(lia))).
    destruct (arr_get (Node4.keys n) i); simpl; try done.
    rewrite IH by lia. done.
Qed.

(** C4. For a Node4 with occupancy count between 0 and 4 and any query byte,
    [findChild] returns the child of an occupied slot (index below the
    count) whose key byte is the query byte when there is one, and [NULL]
    otherwise; and it consults no slot at or beyond the count: a node that
    differs only in those slots gives the same answer. *)
Theorem findChild_Node4_occupied_slots (pf : Platform) (n : Node4.t) (byte : Z) :
  type (Node4.node n) = NodeType_code NODE4 ->
  length (Node4.keys n) = 4%nat ->
  length (Node4.children n) = 4%nat ->
  0 <= Node4.count n <= 4 ->
  (exists r, findChild pf (ObjNode4 n) byte = Ret r
             /\ slot_lookup (Node4.keys n) (Node4.children n) (Node4.count n) byte r)
  /\ (forall n' : Node4.t,
        type (Node4.node n') = NodeType_code NODE4 ->
        Node4.count n' = Node4.count n ->
        take (Z.to_nat (Node4.count n)) (Node4.keys n')
          = take (Z.to_nat (Node4.count n)) (Node4.keys n) ->
        take (Z.to_nat (Node4.count n)) (Node4.children n')
          = take (Z.to_nat (Node4.count n)) (Node4.children n) ->
        findChild pf (ObjNode4 n') byte = findChild pf (ObjNode4 n) byte).
Proof.
  intros Hty Hk Hch Hcount. split.
  - unfold findChild. simpl. rewrite Hty. simpl.
    destruct (findChild_loop4_spec n byte ltac:(lia) ltac:(lia)
                (Z.to_nat (Node4.count n)) 0) as (r & Hr & Hspec); [lia|lia|].
    exists r. split; [done|].
    destruct Hspec as [(j & Hj & Hkj & Hcj & _)|[-> Hnone]].
    + left. exists j. repeat split; try done; lia.
    + right. split; [done|]. intros i Hi. apply Hnone. lia.
  - intros n' Hty' Hc' Hk' Hch'. unfold findChild. simpl.
    rewrite Hty, Hty'. simpl. rewrite Hc'.
    apply findChild_loop4_agree; try done.
    + by apply agree_below_take.
    + by apply agree_below_take.
Qed.

(** The theorem at a node with two of its four slots occupied. *)
Lemma node4_two_keys_lookup :
  (exists r, findChild x86_64 (ObjNode4 node4_two_keys) 7 = Ret r
             /\ slot_lookup (Node4.keys node4_two_keys) (Node4.children node4_two_keys)
                  (Node4.count node4_two_keys) 7 r)
  /\ (forall n' : Node4.t,
        type (Node4.node n') = NodeType_code NODE4 ->
        Node4.count n' = Node4.count node4_two_keys ->
        take (Z.to_nat (Node4.count node4_two_keys)) (Node4.keys n')
          = take (Z.to_nat (Node4.count node4_two_keys)) (Node4.keys node4_two_keys) ->
        take (Z.to_nat (Node4.count node4_two_keys)) (Node4.children n')
          = take (Z.to_nat (Node4.count node4_two_keys)) (Node4.children node4_two_keys) ->
        findChild x86_64 (ObjNode4 n') 7 = findChild x86_64 (ObjNode4 node4_two_keys) 7).
Proof.
  apply (findChild_Node4_occupied_slots x86_64 node4_two_keys 7);
    [reflexivity | reflexivity | reflexivity | simpl; lia].
Defined.

(** ** Binary search in a Node16 *)

Lemma ascending_head (x : Z) (l : list Z) (j : nat) (y : Z) :
  ascending (x :: l) = true -> (x :: l) !! j = Some y -> x <= y.
Proof.
  revert x j. induction l as [|z l IH]; intros x j Hasc Hj.
  - destruct j as [|j]; simpl in Hj; [injection Hj as ->; lia | by destruct j].
  - destruct j as [|j]; [injection Hj as ->; lia|].
    change (ascending (x :: z :: l)) with ((x <=? z) && ascending (z :: l)) in Hasc.
    apply andb_true_iff in Hasc as [Hxz Hasc]. apply Z.leb_le in Hxz.
    specialize (IH z j Hasc Hj). lia.
Qed.

Lemma ascending_tail (x : Z) (l : list Z) :
  ascending (x :: l) = true -> ascending l = true.
Proof.
  destruct l as [|z l]; [done|].
  change (ascending (x :: z :: l)) with ((x <=? z) && ascending (z :: l)).
  intros H. by apply andb_true_iff in H as [_ H].
Qed.

Lemma ascending_lookup (l : list Z) (i j : nat) (x y : Z) :
  ascending l = true -> (i <= j)%nat ->
  l !! i = Some x -> l !! j = Some y -> x <= y.
Proof.
  revert i j. induction l as [|z l IH]; intros i j Hasc Hij Hi Hj; [done|].
  destruct i as [|i].
  - injection Hi as ->. by eapply ascending_head.
  - destruct j as [|j]; [lia|]. simpl in Hi, Hj.
    eapply (IH i j); eauto using ascending_tail. lia.
Qed.

Section Node16_binary.
Variables (n : Node16.t) (byte : Z).
Hypothesis Hkeys : Node16.count n <= Z.of_nat (length (Node16.keys n)).
Hypothesis Hchildren : Node16.count n <= Z.of_nat (length (Node16.children n)).
Hypothesis Hsorted :
  ascending (take (Z.to_nat (Node16.count n)) (Node16.keys n)) = true.

Lemma occupied_keys_ordered (i j x y : Z) :
  0 <= i <= j -> j < Node16.count n ->
  Node16.keys n !! Z.to_nat i = Some x ->
  Node16.keys n !! Z.to_nat j = Some y -> x <= y.
Proof.
  intros Hij Hj Hx Hy.
  apply (ascending_lookup _ (Z.to_nat i) (Z.to_nat j) x y Hsorted); [lia| |].
  - rewrite lookup_take_lt by lia. done.
  - rewrite lookup_take_lt by lia. done.
Qed.

(** The loop, entered with every occupied key left of [low] smaller than
    [byte] and every occupied key right of [high] larger, ends with the
    answer. *)
Lemma findChildBinary_loop_spec (fuel : nat) (low high : Z) :
  0 <= low -> high < Node16.count n -> high - low + 1 <= Z.of_nat fuel ->
  (forall k x, 0 <= k < low -> Node16.keys n !! Z.to_nat k = Some x -> x < byte) ->
  (forall k x, high < k < Node16.count n ->
               Node16.keys n !! Z.to_nat k = Some x -> byte < x) ->
  exists r, findChildBinary_loop fuel n byte low high = Ret r
            /\ slot_lookup (Node16.keys n) (Node16.children n) (Node16.count n) byte r.
Proof.
  revert low high.
  assert (Hnone : forall low high,
    0 <= low -> high < low ->
    (forall k x, 0 <= k < low -> Node16.keys n !! Z.to_nat k = Some x -> x < byte) ->
    (forall k x, high < k < Node16.count n ->
                 Node16.keys n !! Z.to_nat k = Some x -> byte < x) ->
    slot_lookup (Node16.keys n) (Node16.children n) (Node16.count n) byte NULL).
  { intros low high Hlow Hgt Hleft Hright. right. split; [done|].
    intros i Hi Hk. destruct (Z.lt_ge_cases i low).
    - specialize (Hleft i byte ltac:(lia) Hk). lia.
    - specialize (Hright i byte ltac:(lia) Hk). lia. }
  induction fuel as [|fuel IH]; intros low high Hlow Hhigh Hfuel Hleft Hright; simpl.
  - destruct (Z.leb_spec low high); [lia|]. exists NULL. split; [done|]. eauto.
  - destruct (Z.leb_spec low high) as [Hle|Hgt];
      [|exists NULL; split; [done|]; eauto].
    rewrite Z.quot_div_nonneg by lia.
    set (mid := low + (high - low) / 2).
    assert (Hmid : low <= mid <= high).
    { subst mid. split.
      - pose proof (Z.div_pos (high - low) 2). lia.
      - pose proof (Z.div_le_upper_bound (high - low) 2 (high - low)). lia. }
    destruct (arr_get_in_bounds (Node16.keys n) mid) as (m & -> & Hm); [lia|].
    simpl. destruct (Z.ltb_spec m byte) as [Hlt|Hge].
    + apply IH; try lia; [|done].
      intros k x Hk Hx. destruct (Z.lt_ge_cases k low); [by apply (Hleft k x); [lia|]|].
      pose proof (occupied_keys_ordered k mid x m ltac:(lia) ltac:(lia) Hx Hm). lia.
    + destruct (Z.gtb_spec m byte) as [Hgt|Hle'].
      * apply IH; try lia; [done|].
        intros k x Hk Hx. destruct (Z.lt_ge_cases high k); [by apply (Hright k x); [lia|]|].
        pose proof (occupied_keys_ordered mid k m x ltac:(lia) ltac:(lia) Hm Hx). lia.
      * assert (m = byte) as -> by lia.
        destruct (arr_get_in_bounds (Node16.children n) mid) as (c & -> & Hc); [lia|].
        exists c. split; [done|]. left. exists mid. repeat split; try done; lia.
Qed.
End Node16_binary.

(** Where [count - 1] does not overflow, the search is its loop on the
    interval [0 .. count - 1]. *)
Lemma findChildBinary_eq (n : Node16.t) (byte : Z) :
  -2147483648 < Node16.count n <= 2147483648 ->
  findChildBinary n byte
  = findChildBinary_loop (Z.to_nat (Node16.count n)) n byte 0 (Node16.count n - 1).
Proof.
  intros H. unfold findChildBinary. by rewrite int_sub_in_range by lia.
Qed.

(** C5 (amended). For a Node16 with occupancy count between 0 and 16 whose
    occupied key slots are ascending in the order of the [char] comparison
    the search performs (on a platform with signed [char], the bytes 128..255
    come before the bytes 0..127), and for any query byte, [findChildBinary]
    returns the child of an occupied slot whose key is the query byte when
    there is one, and [NULL] otherwise. *)
Theorem findChildBinary_sorted_chars (n : Node16.t) (byte : Z) :
  length (Node16.keys n) = 16%nat ->
  length (Node16.children n) = 16%nat ->
  0 <= Node16.count n <= 16 ->
  sorted_as_chars n = true ->
  exists r, findChildBinary n byte = Ret r
            /\ slot_lookup (Node16.keys n) (Node16.children n) (Node16.count n) byte r.
Proof.
  intros Hk Hch Hcount Hsorted. rewrite findChildBinary_eq by lia.
  apply findChildBinary_loop_spec; try done; try lia.
Qed.

(** The theorem at a node holding key byte 200 on x86-64. *)
Lemma node16_signed_order_binary :
  exists r, findChildBinary node16_signed_order (to_char x86_64 200) = Ret r
            /\ slot_lookup (Node16.keys node16_signed_order)
                 (Node16.children node16_signed_order)
                 (Node16.count node16_signed_order) (to_char x86_64 200) r.
Proof.
  apply (findChildBinary_sorted_chars node16_signed_order (to_char x86_64 200));
    [reflexivity | reflexivity | simpl; lia | reflexivity].
Defined.

(** C5 as stated fails: on x86-64 the node [node16_high_key] holds the key
    bytes 1, 2 and 200 in ascending byte order, and the search for byte 200
    returns neither the child of its slot nor, rightly, [NULL]. *)
Lemma findChildBinary_misses_upper_half :
  Node16_shaped x86_64 node16_high_key
  /\ sorted_as_bytes node16_high_key = true
  /\ 0 <= 200 <= 255
  /\ ~ binary_search_finds x86_64 node16_high_key 200.
Proof.
  split; [|split; [|split]]; try reflexivity; try lia.
  - repeat split; try reflexivity; try (simpl; lia).
    unfold node16_high_key. simpl.
    repeat (constructor; [char_range|]). constructor.
  - intros (r & Hr & Hs). vm_compute in Hr. injection Hr as <-.
    destruct Hs as [(i & Hi & Hk & Hc)|[_ Hnone]].
    + simpl in Hi.
      assert (i = 0 \/ i = 1 \/ i = 2) as [-> | [-> | ->]] by lia; vm_compute in Hk, Hc; congruence.
    + apply (Hnone 2); [simpl; lia|reflexivity].
Qed.

(** Where plain [char] is unsigned the two orders are one, and the search
    is correct for keys ascending as bytes. *)
Lemma findChildBinary_sorted_bytes_unsigned (pf : Platform) (n : Node16.t) (b : Z) :
  char_signed pf = false -> Node16_shaped pf n -> sorted_as_bytes n = true ->
  binary_search_finds pf n b.
Proof.
  intros Hpf (Hk & Hch & Hcount & Hchars) Hsorted.
  unfold binary_search_finds. rewrite findChildBinary_eq by lia.
  apply findChildBinary_loop_spec; try done; try lia.
  unfold sorted_as_bytes in Hsorted.
  rewrite (list_fmap_ext byte_of_char id (take (Z.to_nat (Node16.count n)) (Node16.keys n)))
    in Hsorted; [by rewrite list_fmap_id in Hsorted|].
  intros i x Hx. apply lookup_take_Some in Hx as [Hx _].
  rewrite Forall_lookup in Hchars. specialize (Hchars i x Hx).
  unfold is_char in Hchars. rewrite Hpf in Hchars.
  unfold byte_of_char. simpl. apply Z.mod_small. lia.
Qed.

(** ** The vectorized lookup *)

Lemma builtin_ctz_pow2 (j : nat) : builtin_ctz (2 ^ Z.of_nat j) = Z.of_nat j.
Proof.
  induction j as [|j IH]; [done|].
  rewrite Nat2Z.inj_succ, Z.pow_succ_r by lia.
  destruct (2 ^ Z.of_nat j) as [|p|p] eqn:E; try (pose proof (Z.pow_pos_nonneg 2 (Z.of_nat j)); lia).
  change (2 * Z.pos p) with (Z.pos p~0). simpl in *. lia.
Qed.

Lemma movemask_testbit (a : m128i) (j : nat) (x : Z) :
  a !! j = Some x -> Z.testbit (mm_movemask_epi8 a) (Z.of_nat j) = Z.testbit x 7.
Proof.
  revert j. induction a as [|y a IH]; intros j Hj; [done|].
  simpl. rewrite Z.add_comm. destruct j as [|j].
  - injection Hj as ->. apply Z.testbit_0_r.
  - rewrite Nat2Z.inj_succ, Z.testbit_succ_r by lia. by apply IH.
Qed.

Lemma land_pow2 (m j : Z) :
  0 <= j -> Z.land m (2 ^ j) = if Z.testbit m j then 2 ^ j else 0.
Proof.
  intros Hj. apply Z.bits_inj'. intros k Hk.
  rewrite Z.land_spec, Z.pow2_bits_eqb by lia.
  destruct (Z.eqb_spec j k) as [->|Hne].
  - destruct (Z.testbit m k); [by rewrite Z.pow2_bits_true by lia | by rewrite Z.bits_0].
  - rewrite andb_false_r.
    destruct (Z.testbit m j); [by rewrite Z.pow2_bits_false by lia | by rewrite Z.bits_0].
Qed.

Lemma cmpeq_lane (a b : m128i) (j : nat) (x y : Z) :
  a !! j = Some x -> b !! j = Some y ->
  mm_cmpeq_epi8 a b !! j = Some (if x =? y then 255 else 0).
Proof.
  intros Ha Hb. unfold mm_cmpeq_epi8. rewrite lookup_zip_with, Ha. simpl. by rewrite Hb.
Qed.

(** What [findChildSSE] computes on a Node16 with at least one occupied
    slot: its mask keeps the single bit of slot [count - 1], so only the
    last occupied slot can match. *)
Lemma findChildSSE_last_slot_only (n : Node16.t) (byte : Z) :
  length (Node16.keys n) = 16%nat ->
  length (Node16.children n) = 16%nat ->
  1 <= Node16.count n <= 16 ->
  exists k c,
    Node16.keys n !! Z.to_nat (Node16.count n - 1) = Some k
    /\ Node16.children n !! Z.to_nat (Node16.count n - 1) = Some c
    /\ findChildSSE n byte
       = Ret (if byte_of_char byte =? byte_of_char k then c else NULL).
Proof.
  intros Hk Hch Hcount.
  set (j := Z.to_nat (Node16.count n - 1)).
  destruct (lookup_lt_is_Some_2 (Node16.keys n) j) as [k Hkj]; [lia|].
  destruct (lookup_lt_is_Some_2 (Node16.children n) j) as [c Hcj]; [lia|].
  exists k, c. split; [done|]. split; [done|].
  unfold findChildSSE, mm_loadu_si128. rewrite Hk.
  change (16 <? 16)%nat with false. run_bind.
  rewrite take_ge by lia.
  rewrite int_sub_in_range by lia. run_bind.
  unfold int_shl.
  destruct (Z.ltb_spec (Node16.count n - 1) 0); [lia|].
  destruct (Z.leb_spec 32 (Node16.count n - 1)); [lia|]. cbn [orb].
  rewrite Z.shiftl_1_l.
  destruct (Z.leb_spec (2 ^ 31) (2 ^ (Node16.count n - 1))) as [Hbig|_].
  { pose proof (Z.pow_lt_mono_r 2 (Node16.count n - 1) 31). lia. }
  run_bind. rewrite land_pow2 by lia.
  replace (Node16.count n - 1) with (Z.of_nat j) by lia.
  rewrite (movemask_testbit _ j (if byte_of_char byte =? byte_of_char k then 255 else 0)).
  2:{ apply cmpeq_lane.
      - unfold mm_set1_epi8. apply lookup_replicate_2. lia.
      - by rewrite list_lookup_fmap, Hkj. }
  destruct (byte_of_char byte =? byte_of_char k).
  - change (Z.testbit 255 7) with true. cbv iota.
    pose proof (Z.pow_pos_nonneg 2 (Z.of_nat j)).
    destruct (Z.eqb_spec (2 ^ Z.of_nat j) 0); [lia|]. simpl.
    rewrite builtin_ctz_pow2. apply arr_get_Ret; [lia|]. by rewrite Nat2Z.id.
  - change (Z.testbit 0 7) with false. done.
Qed.

(** With no occupied slot the mask is [1 << -1]: undefined. *)
Lemma findChildSSE_empty (n : Node16.t) (byte : Z) :
  length (Node16.keys n) = 16%nat -> Node16.count n = 0 ->
  findChildSSE n byte = Undefined BadShift.
Proof.
  intros Hk Hc. unfold findChildSSE, mm_loadu_si128. rewrite Hk, Hc. done.
Qed.

(** The same lookups on a Node16 with no occupied slot. *)
Lemma findChildSSE_differs_on_empty (n : Node16.t) (byte : Z) :
  length (Node16.keys n) = 16%nat -> Node16.count n = 0 ->
  findChildBinary n byte = Ret NULL /\ findChildSSE n byte = Undefined BadShift.
Proof.
  intros Hk Hc. split; [|by apply findChildSSE_empty].
  unfold findChildBinary. by rewrite Hc.
Qed.

(** C1. On a sorted Node16 with two occupied slots (key bytes 1 and 2) and
    query byte 1, the portable lookup returns the child of slot 0 and the
    vectorized lookup returns [NULL]: the two are not interchangeable. *)
Theorem findChildSSE_differs_from_findChildBinary :
  Node16_shaped x86_64 node16_low_keys
  /\ sorted_as_chars node16_low_keys = true
  /\ findChildBinary node16_low_keys (to_char x86_64 1) = Ret 101
  /\ findChildSSE node16_low_keys (to_char x86_64 1) = Ret NULL
  /\ findChildSSE node16_low_keys (to_char x86_64 1)
     <> findChildBinary node16_low_keys (to_char x86_64 1).
Proof.
  split; [|split; [|split; [|split]]]; try reflexivity; try discriminate.
  repeat split; try reflexivity; try (simpl; lia).
  unfold node16_low_keys. simpl.
  repeat (constructor; [char_range|]). constructor.
Qed.

(** ** Conversion of bytes to [char] *)

Lemma to_char_is_char (pf : Platform) (z : Z) : is_char pf (to_char pf z).
Proof.
  unfold is_char, to_char. destruct (char_signed pf); Z.div_mod_to_equations; lia.
Qed.

Lemma to_char_unsigned (pf : Platform) (b : Z) :
  char_signed pf = false -> 0 <= b <= 255 -> to_char pf b = b.
Proof. intros Hpf Hb. unfold to_char. rewrite Hpf. apply Z.mod_small. lia. Qed.

Lemma to_char_low (pf : Platform) (b : Z) : 0 <= b <= 127 -> to_char pf b = b.
Proof.
  intros Hb. unfold to_char. destruct (char_signed pf); Z.div_mod_to_equations; lia.
Qed.

Lemma to_char_signed_high (pf : Platform) (b : Z) :
  char_signed pf = true -> 128 <= b <= 255 -> to_char pf b = b - 256.
Proof.
  intros Hpf Hb. unfold to_char. rewrite Hpf. Z.div_mod_to_equations; lia.
Qed.

Lemma to_char_sentinel (pf : Platform) (b : Z) :
  0 <= b <= 255 -> to_char pf b = to_char pf EMPTY_KEY <-> b = 255.
Proof.
  intros Hb. unfold to_char, EMPTY_KEY, to_uchar.
  destruct (char_signed pf); Z.div_mod_to_equations; lia.
Qed.

(** ** The table lookups of Node48 and Node256 *)

Lemma EMPTY_KEY_not_a_slot_index : ~ (0 <= EMPTY_KEY < 48).
Proof. vm_compute. intros [_ H]. discriminate H. Qed.

(** For a [char] that is not negative, the Node48 lookup reads the table
    entry of that byte and returns a child exactly when the entry is not the
    sentinel. *)
Lemma findChild_Node48_nonnegative (pf : Platform) (n : Node48.t) (c : Z) :
  Node48_well_formed n -> 0 <= c <= 255 ->
  exists e r,
    Node48.keys n !! Z.to_nat c = Some e
    /\ findChild pf (ObjNode48 n) c = Ret r
    /\ (r <> NULL <-> e <> EMPTY_KEY)
    /\ (e <> EMPTY_KEY -> 0 <= e < 48 /\ Node48.children n !! Z.to_nat e = Some r).
Proof.
  intros (Hty & Hk & Hch & Hent) Hc.
  destruct (arr_get_in_bounds (Node48.keys n) c) as (e & Hget & He); [lia|].
  rewrite Forall_lookup in Hent. specialize (Hent _ _ He).
  unfold findChild. cbn [header]. run_bind. rewrite Hty.
  cbn [NodeType_code Z.eqb Pos.eqb as_Node48]. run_bind. rewrite Hget. run_bind.
  destruct (Z.eqb_spec e EMPTY_KEY) as [->|Hne]; cbn [negb].
  - exists EMPTY_KEY, NULL. repeat split; try done.
  - destruct Hent as [?|(Hrange & child & Hchild & Hnn)]; [done|].
    exists e, child. rewrite (arr_get_Ret _ e child) by (done || lia).
    repeat split; try done; lia.
Qed.

(** For a [char] that is not negative, the Node256 lookup reads the entry
    of that byte. *)
Lemma findChild_Node256_nonnegative (pf : Platform) (n : Node256.t) (c : Z) :
  Node256_shaped n -> 0 <= c <= 255 ->
  exists r, Node256.children n !! Z.to_nat c = Some r
            /\ findChild pf (ObjNode256 n) c = Ret r.
Proof.
  intros (Hty & Hch) Hc.
  destruct (arr_get_in_bounds (Node256.children n) c) as (r & Hget & Hr); [lia|].
  exists r. split; [done|].
  unfold findChild. cbn [header]. run_bind. rewrite Hty.
  cbn [NodeType_code Z.eqb Pos.eqb as_Node256]. run_bind. done.
Qed.

(** Where plain [char] is signed, every byte of the upper half is a negative
    subscript of both tables. *)
Lemma findChild_tables_upper_half (pf : Platform) (n48 : Node48.t) (n256 : Node256.t)
    (b : Z) :
  char_signed pf = true -> 128 <= b <= 255 ->
  type (Node48.node n48) = NodeType_code NODE48 ->
  type (Node256.node n256) = NodeType_code NODE256 ->
  findChild pf (ObjNode48 n48) (to_char pf b) = Undefined OutOfBounds
  /\ findChild pf (ObjNode256 n256) (to_char pf b) = Undefined OutOfBounds.
Proof.
  intros Hpf Hb H48 H256. rewrite to_char_signed_high by done.
  unfold findChild. cbn [header]. run_bind. rewrite H48, H256.
  cbn [NodeType_code Z.eqb Pos.eqb as_Node48 as_Node256]. run_bind.
  rewrite !arr_get_negative by lia. done.
Qed.

(** Where plain [char] is unsigned, both table accesses are in bounds for
    every byte. *)
Lemma findChild_tables_unsigned (pf : Platform) (n48 : Node48.t) (n256 : Node256.t)
    (b : Z) :
  char_signed pf = false -> 0 <= b <= 255 ->
  length (Node48.keys n48) = 256%nat -> length (Node256.children n256) = 256%nat ->
  (exists e, arr_get (Node48.keys n48) (to_char pf b) = Ret e)
  /\ (exists c, arr_get (Node256.children n256) (to_char pf b) = Ret c).
Proof.
  intros Hpf Hb H48 H256. rewrite to_char_unsigned by done. split.
  - destruct (arr_get_in_bounds (Node48.keys n48) b) as (e & He & _); [lia|eauto].
  - destruct (arr_get_in_bounds (Node256.children n256) b) as (c & Hc & _); [lia|eauto].
Qed.

(** On every platform, both table accesses are in bounds for the bytes 0
    to 127. *)
Lemma findChild_tables_lower_half (pf : Platform) (n48 : Node48.t) (n256 : Node256.t)
    (b : Z) :
  0 <= b <= 127 ->
  length (Node48.keys n48) = 256%nat -> length (Node256.children n256) = 256%nat ->
  (exists e, arr_get (Node48.keys n48) (to_char pf b) = Ret e)
  /\ (exists c, arr_get (Node256.children n256) (to_char pf b) = Ret c).
Proof.
  intros Hb H48 H256. rewrite to_char_low by done. split.
  - destruct (arr_get_in_bounds (Node48.keys n48) b) as (e & He & _); [lia|eauto].
  - destruct (arr_get_in_bounds (Node256.children n256) b) as (c & Hc & _); [lia|eauto].
Qed.

Lemma node48_high_key_well_formed : Node48_well_formed node48_high_key.
Proof.
  repeat split; try reflexivity.
  unfold node48_high_key. cbn [Node48.keys Node48.children].
  apply Forall_insert.
  - apply Forall_replicate. by left.
  - right. split; [lia|]. exists 105. split; [reflexivity|discriminate].
Qed.

(** C2. On x86-64 the indexing byte 200 reaches [findChild] as the [char]
    -56, and both the Node48 table access and the Node256 child access use
    it as a negative subscript: the accesses are out of bounds. *)
Theorem findChild_table_subscript_out_of_bounds :
  0 <= 200 <= 255
  /\ to_char x86_64 200 = -56
  /\ length (Node48.keys node48_high_key) = 256%nat
  /\ length (Node256.children node256_high_key) = 256%nat
  /\ arr_get (Node48.keys node48_high_key) (to_char x86_64 200) = Undefined OutOfBounds
  /\ findChild x86_64 (ObjNode48 node48_high_key) (to_char x86_64 200)
     = Undefined OutOfBounds
  /\ findChild x86_64 (ObjNode256 node256_high_key) (to_char x86_64 200)
     = Undefined OutOfBounds.
Proof. repeat split; try reflexivity; lia. Qed.

(** C7. The Node48 below is well formed and its table entry for byte 200 is
    slot 5, which holds a child; on x86-64 [findChild] queried with byte 200
    does not return that child: it reads the table out of bounds. *)
Theorem findChild_Node48_misses_upper_half :
  Node48_well_formed node48_high_key
  /\ Node48.keys node48_high_key !! 200%nat = Some 5
  /\ 5 <> EMPTY_KEY
  /\ Node48.children node48_high_key !! 5%nat = Some 105
  /\ findChild x86_64 (ObjNode48 node48_high_key) (to_char x86_64 200)
     = Undefined OutOfBounds.
Proof.
  split; [apply node48_high_key_well_formed|].
  repeat split; try reflexivity. discriminate.
Qed.

(** ** Stored children are found *)

Lemma occupied_slot_unique (keys children : list Z) (count key r child : Z) (i : Z) :
  NoDup (take (Z.to_nat count) keys) ->
  0 <= i < count -> keys !! Z.to_nat i = Some key -> children !! Z.to_nat i = Some child ->
  slot_lookup keys children count key r -> r = child.
Proof.
  intros Hnd Hi Hk Hc [(j & Hj & Hkj & Hcj)|[_ Hnone]].
  - assert (Z.to_nat i = Z.to_nat j) as Hij.
    { apply (NoDup_lookup _ _ _ key Hnd); rewrite lookup_take_lt by lia; done. }
    rewrite Hij in Hc. congruence.
  - by destruct (Hnone i Hi).
Qed.

(** Every class but the vectorized Node16 returns the child stored under a
    key whose [char] is not negative; byte 0 is such a key. *)
Lemma findChild_finds_stored (pf : Platform) (node : Object) (key child : Z) :
  well_formed pf node -> stores node key child -> 0 <= key <= 255 ->
  vectorized pf node = false ->
  findChild pf node key = Ret child.
Proof.
  intros Hwf Hst Hkey Hvec. destruct node as [n|n|n|n| | |]; try done.
  - destruct Hwf as (Hty & Hk & Hch & Hcount & Hnd). destruct Hst as (i & Hi & Hki & Hci).
    unfold findChild. cbn [header]. run_bind. rewrite Hty.
    cbn [NodeType_code Z.eqb as_Node4]. run_bind.
    destruct (findChild_loop4_spec n key ltac:(lia) ltac:(lia)
                (Z.to_nat (Node4.count n)) 0) as (r & -> & Hr); [lia|lia|].
    f_equal. apply (occupied_slot_unique (Node4.keys n) (Node4.children n)
                      (Node4.count n) key r child i); try done.
    destruct Hr as [(j & Hj & Hkj & Hcj & _)|[-> Hnone]].
    + left. exists j. repeat split; try done; lia.
    + right. split; [done|]. intros k Hk'. apply Hnone. lia.
  - destruct Hwf as (Hty & (Hk & Hch & Hcount & _) & Hsorted & Hnd).
    destruct Hst as (i & Hi & Hki & Hci). simpl in Hvec.
    unfold findChild. cbn [header]. run_bind. rewrite Hty.
    cbn [NodeType_code Z.eqb Pos.eqb as_Node16]. run_bind. rewrite Hvec.
    rewrite findChildBinary_eq by lia.
    destruct (findChildBinary_loop_spec n key ltac:(lia) ltac:(lia) Hsorted
                (Z.to_nat (Node16.count n)) 0 (Node16.count n - 1))
      as (r & -> & Hr); try lia.
    f_equal. by apply (occupied_slot_unique (Node16.keys n) (Node16.children n)
                         (Node16.count n) key r child i).
  - destruct Hst as (e & He & Hne & Hc).
    destruct (findChild_Node48_nonnegative pf n key Hwf Hkey)
      as (e' & r & He' & -> & _ & Hr).
    assert (e' = e) as -> by congruence.
    destruct (Hr Hne) as [_ Hr']. congruence.
  - destruct Hst as [Hc _].
    destruct (findChild_Node256_nonnegative pf n key Hwf Hkey) as (r & Hr & ->).
    congruence.
Qed.

(** C6. The Node16 below is well formed and stores child 201 under key byte
    0 (slot 0 of 2); [findChild] as compiled on x86-64, where [__SSE2__] is
    defined, queried with byte 0 reports it absent. *)
Theorem findChild_Node16_sse_misses_byte_0 :
  well_formed x86_64 (ObjNode16 node16_zero_key)
  /\ stores (ObjNode16 node16_zero_key) (to_char x86_64 0) 201
  /\ findChild x86_64 (ObjNode16 node16_zero_key) (to_char x86_64 0) = Ret NULL.
Proof.
  split; [|split]; [| |reflexivity].
  - split; [reflexivity|]. split; [|split; [reflexivity|]].
    + repeat split; try reflexivity; try (simpl; lia).
      unfold node16_zero_key. cbn [Node16.keys app replicate].
      repeat (constructor; [char_range|]). constructor.
    + unfold node16_zero_key. cbn [Node16.keys Node16.count app replicate Z.to_nat
        Pos.to_nat Pos.iter_op Nat.add take].
      apply NoDup_cons. split; [|apply NoDup_singleton].
      intros H. apply list_elem_of_singleton in H. discriminate.
  - exists 0. repeat split; try reflexivity; simpl; lia.
Qed.

(** ** The root node and the tree *)

Lemma createRootNode_granted (pf : Platform) (s : State) (g : list bool) :
  grants s = true :: g ->
  createRootNode pf s
  = (Z.pos (brk s),
     {| heap := <[brk s := ObjNode4 (empty_root pf)]> (heap s);
        brk := Pos.succ (brk s); grants := g |}).
Proof.
  intros Hg. unfold createRootNode, calloc_Node4, allocate. rewrite Hg.
  cbn [Z.eqb NULL store heap brk grants]. f_equal. f_equal.
  apply insert_insert_eq.
Qed.

Lemma createRootNode_refused (pf : Platform) (s : State) (root : Z) (s' : State) :
  createRootNode pf s = (root, s') -> root = NULL ->
  heap s' = heap s /\ (grants s = [] \/ exists g, grants s = false :: g).
Proof.
  unfold createRootNode, calloc_Node4, allocate.
  destruct (grants s) as [|[|] g] eqn:Hg; cbn [Z.eqb NULL].
  - intros [= <- <-]. eauto.
  - intros [= <- <-]. discriminate.
  - intros [= <- <-]. eauto.
Qed.

Lemma createRootNode_inv (pf : Platform) (s : State) (root : Z) (s' : State) :
  createRootNode pf s = (root, s') -> root <> NULL ->
  deref s' root = Ret (ObjNode4 (empty_root pf)).
Proof.
  unfold createRootNode, calloc_Node4, allocate.
  destruct (grants s) as [|[|] g] eqn:Hg; cbn [Z.eqb NULL].
  - by intros [= <- <-].
  - intros [= <- <-] _. unfold deref, store. cbn [heap].
    by rewrite lookup_insert_eq.
  - by intros [= <- <-].
Qed.

(** C9. The root node that [createRootNode] produces is a Node4 with count
    0, every key slot set to the sentinel and every child pointer null, and
    [findChild] on it returns [NULL] for every query byte. *)
Theorem findChild_fresh_root_absent (pf : Platform) (s s' : State) (root byte : Z) :
  createRootNode pf s = (root, s') -> root <> NULL ->
  exists n,
    deref s' root = Ret (ObjNode4 n)
    /\ type (Node4.node n) = NodeType_code NODE4
    /\ Node4.count n = 0
    /\ Node4.keys n = replicate 4 (to_char pf EMPTY_KEY)
    /\ Node4.children n = replicate 4 NULL
    /\ findChild_at pf s' root byte = Ret NULL.
Proof.
  intros Hc Hroot. exists (empty_root pf).
  pose proof (createRootNode_inv pf s root s' Hc Hroot) as Hd.
  repeat split; try done.
  unfold findChild_at. rewrite Hd. done.
Qed.

(** The theorem at the root built in an empty store, queried with byte 255. *)
Lemma fresh_root_absent_example :
  exists n,
    deref (snd (createRootNode x86_64 (fresh_state [true]))) 1 = Ret (ObjNode4 n)
    /\ type (Node4.node n) = NodeType_code NODE4
    /\ Node4.count n = 0
    /\ Node4.keys n = replicate 4 (to_char x86_64 EMPTY_KEY)
    /\ Node4.children n = replicate 4 NULL
    /\ findChild_at x86_64 (snd (createRootNode x86_64 (fresh_state [true]))) 1
         (to_char x86_64 255) = Ret NULL.
Proof.
  apply (findChild_fresh_root_absent x86_64 (fresh_state [true])
           (snd (createRootNode x86_64 (fresh_state [true]))) 1 (to_char x86_64 255));
    [reflexivity | discriminate].
Defined.

(** When both allocations are granted the tree is empty, of size 0, with a
    non-null root that is the empty Node4. *)
Lemma initializeAdaptiveRadixTree_granted (pf : Platform) (s : State) (g : list bool) :
  grants s = true :: true :: g ->
  exists tree root s',
    initializeAdaptiveRadixTree pf s = (tree, s')
    /\ tree <> NULL /\ root <> NULL
    /\ deref s' tree = Ret (ObjART {| ART.root := root; ART.size := 0 |})
    /\ deref s' root = Ret (ObjNode4 (empty_root pf)).
Proof.
  intros Hg. unfold initializeAdaptiveRadixTree, malloc, allocate. rewrite Hg.
  cbn [Z.eqb NULL]. rewrite (createRootNode_granted _ _ g) by done.
  cbn [heap brk grants].
  exists (Z.pos (brk s)), (Z.pos (Pos.succ (brk s))). eexists.
  split; [reflexivity|].
  unfold deref, store. cbn [heap].
  split; [done|]. split; [done|]. split.
  - by rewrite lookup_insert_eq.
  - rewrite lookup_insert_ne by lia. by rewrite lookup_insert_eq.
Qed.

(** When the first allocation is refused there is no tree. *)
Lemma initializeAdaptiveRadixTree_refused (pf : Platform) (s : State) (g : list bool) :
  grants s = false :: g -> fst (initializeAdaptiveRadixTree pf s) = NULL.
Proof.
  intros Hg. unfold initializeAdaptiveRadixTree, malloc, allocate. by rewrite Hg.
Qed.

(** C3. When the allocation of the [ART] is granted and the allocation of
    the root node is refused, [initializeAdaptiveRadixTree] returns a tree
    (a non-null pointer to an [ART] of size 0) whose root is [NULL]. *)
Theorem initializeAdaptiveRadixTree_null_root (pf : Platform) (g : list bool) :
  exists tree s',
    initializeAdaptiveRadixTree pf (fresh_state (true :: false :: g)) = (tree, s')
    /\ tree <> NULL
    /\ deref s' tree = Ret (ObjART {| ART.root := NULL; ART.size := 0 |}).
Proof.
  eexists _, _. split; [reflexivity|]. split; [discriminate|].
  unfold deref, store. cbn [heap]. by rewrite lookup_insert_eq.
Qed.

(** ** Tags outside the inner classes *)

(** C10. For a node whose type tag is [LEAF], or any value that is none of
    the four inner-node tags, [findChild] returns [NULL] for every query
    byte. *)
Theorem findChild_not_inner (pf : Platform) (node : Object) (hd : Node) (byte : Z) :
  header node = Ret hd ->
  type hd <> NodeType_code NODE4 -> type hd <> NodeType_code NODE16 ->
  type hd <> NodeType_code NODE48 -> type hd <> NodeType_code NODE256 ->
  findChild pf node byte = Ret NULL.
Proof.
  intros Hhd H4 H16 H48 H256. unfold findChild. rewrite Hhd. run_bind.
  destruct (Z.eqb_spec (type hd) (NodeType_code NODE4)); [done|].
  destruct (Z.eqb_spec (type hd) (NodeType_code NODE16)); [done|].
  destruct (Z.eqb_spec (type hd) (NodeType_code NODE48)); [done|].
  destruct (Z.eqb_spec (type hd) (NodeType_code NODE256)); [done|].
  done.
Qed.

(** The theorem at a leaf. *)
Lemma findChild_leaf_example :
  findChild x86_64 (ObjLeaf leaf_example) (to_char x86_64 97) = Ret NULL.
Proof.
  apply (findChild_not_inner x86_64 (ObjLeaf leaf_example)
           {| type := NodeType_code LEAF |} (to_char x86_64 97));
    [reflexivity | discriminate | discriminate | discriminate | discriminate].
Defined.

(** * Further properties of the lookups and of the initialisation *)

(** ** Helpers *)

Lemma byte_of_char_inj (pf : Platform) (c d : Z) :
  is_char pf c -> is_char pf d -> byte_of_char c = byte_of_char d -> c = d.
Proof.
  unfold is_char, byte_of_char. destruct (char_signed pf); intros Hc Hd H;
    Z.div_mod_to_equations; lia.
Qed.

Lemma byte_of_char_eqb (pf : Platform) (c d : Z) :
  is_char pf c -> is_char pf d -> (byte_of_char c =? byte_of_char d) = (c =? d).
Proof.
  intros Hc Hd. destruct (Z.eqb_spec c d) as [->|Hne]; [apply Z.eqb_refl|].
  apply Z.eqb_neq. intros H. by apply Hne, (byte_of_char_inj pf).
Qed.

(** A concrete list has no duplicates. *)
Ltac nodup_by_computation := apply (bool_decide_unpack _); vm_compute; exact I.

(** The binary search loop on keys in any order: it ends inside the arrays,
    with [NULL] or with the child of an occupied slot holding [byte]. *)
Lemma findChildBinary_loop_sound (n : Node16.t) (byte : Z) (fuel : nat) (low high : Z) :
  Node16.count n <= Z.of_nat (length (Node16.keys n)) ->
  Node16.count n <= Z.of_nat (length (Node16.children n)) ->
  0 <= low -> high < Node16.count n -> high - low + 1 <= Z.of_nat fuel ->
  exists r, findChildBinary_loop fuel n byte low high = Ret r
            /\ (r = NULL \/
                exists i, 0 <= i < Node16.count n
                          /\ Node16.keys n !! Z.to_nat i = Some byte
                          /\ Node16.children n !! Z.to_nat i = Some r).
Proof.
  intros Hk Hch. revert low high.
  induction fuel as [|fuel IH]; intros low high Hlow Hhigh Hfuel; simpl.
  - destruct (Z.leb_spec low high); [lia|]. exists NULL. split; [done|by left].
  - destruct (Z.leb_spec low high) as [Hle|Hgt]; [|exists NULL; split; [done|by left]].
    rewrite Z.quot_div_nonneg by lia.
    set (mid := low + (high - low) / 2).
    assert (Hmid : low <= mid <= high).
    { subst mid. split.
      - pose proof (Z.div_pos (high - low) 2). lia.
      - pose proof (Z.div_le_upper_bound (high - low) 2 (high - low)). lia. }
    destruct (arr_get_in_bounds (Node16.keys n) mid) as (m & -> & Hm); [lia|].
    run_bind. destruct (Z.ltb_spec m byte) as [Hlt|Hge].
    + apply IH; lia.
    + destruct (Z.gtb_spec m byte) as [Hgt|Hle'].
      * apply IH; lia.
      * assert (m = byte) as -> by lia.
        destruct (arr_get_in_bounds (Node16.children n) mid) as (c & -> & Hc); [lia|].
        exists c. split; [done|]. right. exists mid. repeat split; try done; lia.
Qed.

(** ** The vectorized lookup *)

(** X1. On a Node16 with 1 to 16 occupied slots, [findChildSSE] looks at the
    last occupied slot only: it returns the child of slot [count - 1] when
    that slot's key is the query byte, and [NULL] otherwise, whatever the
    other slots hold. *)
Theorem findChildSSE_reads_last_occupied_slot (pf : Platform) (n : Node16.t) (byte : Z) :
  Node16_shaped pf n -> 1 <= Node16.count n -> is_char pf byte ->
  exists k c,
    Node16.keys n !! Z.to_nat (Node16.count n - 1) = Some k
    /\ Node16.children n !! Z.to_nat (Node16.count n - 1) = Some c
    /\ findChildSSE n byte = Ret (if k =? byte then c else NULL).
Proof.
  intros (Hk & Hch & Hcount & Hchars) Hone Hbyte.
  destruct (findChildSSE_last_slot_only n byte Hk Hch ltac:(lia)) as (k & c & Hkl & Hcl & ->).
  exists k, c. repeat split; try done.
  rewrite Forall_lookup in Hchars.
  rewrite (byte_of_char_eqb pf byte k Hbyte (Hchars _ _ Hkl)).
  by rewrite Z.eqb_sym.
Qed.

(** X1 at the two-key node: byte 1, held by slot 0, is not looked at. *)
Lemma findChildSSE_reads_last_occupied_slot_example :
  exists k c,
    Node16.keys node16_low_keys !! Z.to_nat (Node16.count node16_low_keys - 1) = Some k
    /\ Node16.children node16_low_keys !! Z.to_nat (Node16.count node16_low_keys - 1) = Some c
    /\ findChildSSE node16_low_keys 1 = Ret (if k =? 1 then c else NULL).
Proof.
  apply (findChildSSE_reads_last_occupied_slot x86_64 node16_low_keys 1).
  - repeat split; try reflexivity; try (simpl; lia).
    unfold node16_low_keys. cbn [Node16.keys app replicate].
    repeat (constructor; [char_range|]). constructor.
  - simpl; lia.
  - char_range.
Defined.

(** X2. On a Node16 with sorted, distinct occupied keys, the vectorized and
    the portable lookup return the same result for every query byte that no
    occupied slot before the last one holds. *)
Theorem findChildSSE_agrees_outside_earlier_slots (pf : Platform) (n : Node16.t)
    (byte : Z) :
  Node16_shaped pf n -> 1 <= Node16.count n -> is_char pf byte ->
  sorted_as_chars n = true ->
  NoDup (take (Z.to_nat (Node16.count n)) (Node16.keys n)) ->
  absent_before_last n byte = true ->
  findChildSSE n byte = findChildBinary n byte.
Proof.
  intros (Hk & Hch & Hcount & Hchars) Hone Hbyte Hsorted Hnd Habs.
  destruct (findChildSSE_last_slot_only n byte Hk Hch ltac:(lia)) as (k & c & Hkl & Hcl & ->).
  rewrite Forall_lookup in Hchars.
  rewrite (byte_of_char_eqb pf byte k Hbyte (Hchars _ _ Hkl)).
  rewrite findChildBinary_eq by lia.
  destruct (findChildBinary_loop_spec n byte ltac:(lia) ltac:(lia) Hsorted
              (Z.to_nat (Node16.count n)) 0 (Node16.count n - 1))
    as (r & -> & Hr); try lia.
  f_equal. destruct (Z.eqb_spec byte k) as [->|Hne].
  - symmetry. apply (occupied_slot_unique (Node16.keys n) (Node16.children n)
                       (Node16.count n) k r c (Node16.count n - 1)); try done. lia.
  - destruct Hr as [(i & Hi & Hki & Hci)|[-> _]]; [|done].
    exfalso. destruct (Z.eq_dec i (Node16.count n - 1)) as [->|Hlast]; [congruence|].
    unfold absent_before_last in Habs. rewrite forallb_forall in Habs.
    specialize (Habs byte). rewrite Z.eqb_refl in Habs.
    assert (false = true) by (apply Habs, list_elem_of_In, list_elem_of_lookup;
      exists (Z.to_nat i); rewrite lookup_take_lt by lia; done).
    discriminate.
Qed.

(** X2 at the two-key node and byte 2, held by the last occupied slot. *)
Lemma findChildSSE_agrees_example :
  findChildSSE node16_low_keys 2 = findChildBinary node16_low_keys 2.
Proof.
  apply (findChildSSE_agrees_outside_earlier_slots x86_64 node16_low_keys 2).
  - repeat split; try reflexivity; try (simpl; lia).
    unfold node16_low_keys. cbn [Node16.keys app replicate].
    repeat (constructor; [char_range|]). constructor.
  - simpl; lia.
  - char_range.
  - reflexivity.
  - nodup_by_computation.
  - reflexivity.
Defined.

(** ** The binary search on arbitrary keys *)

(** X3. On every Node16 with a count of at most 16 for which [count - 1]
    is an [int] (an empty node and a negative count above [INT_MIN]
    included), sorted or not, [findChildBinary] stays inside the arrays and
    returns either [NULL] or the child of an occupied slot whose key is the
    query byte: it may miss a key, it never returns the child filed under
    another key. *)
Theorem findChildBinary_never_wrong_child (n : Node16.t) (byte : Z) :
  length (Node16.keys n) = 16%nat ->
  length (Node16.children n) = 16%nat ->
  INT_MIN < Node16.count n <= 16 ->
  exists r, findChildBinary n byte = Ret r
            /\ (r = NULL \/
                exists i, 0 <= i < Node16.count n
                          /\ Node16.keys n !! Z.to_nat i = Some byte
                          /\ Node16.children n !! Z.to_nat i = Some r).
Proof.
  intros Hk Hch Hcount. unfold INT_MIN in Hcount.
  rewrite findChildBinary_eq by lia.
  apply findChildBinary_loop_sound; lia.
Qed.

(** X3 at a node with unsorted keys. *)
Lemma findChildBinary_never_wrong_child_example :
  exists r, findChildBinary node16_unsorted 9 = Ret r
            /\ (r = NULL \/
                exists i, 0 <= i < Node16.count node16_unsorted
                          /\ Node16.keys node16_unsorted !! Z.to_nat i = Some 9
                          /\ Node16.children node16_unsorted !! Z.to_nat i = Some r).
Proof.
  apply (findChildBinary_never_wrong_child node16_unsorted 9);
    [reflexivity | reflexivity | unfold INT_MIN; simpl; lia].
Defined.

(** ** [findChild], class by class *)

Lemma findChild_Node4_eq (pf : Platform) (n : Node4.t) (key : Z) :
  type (Node4.node n) = NodeType_code NODE4 ->
  findChild pf (ObjNode4 n) key
  = findChild_loop4 (Z.to_nat (Node4.count n)) n key 0.
Proof. intros Hty. unfold findChild. cbn [header]. run_bind. by rewrite Hty. Qed.

Lemma findChild_Node16_eq (pf : Platform) (n : Node16.t) (key : Z) :
  type (Node16.node n) = NodeType_code NODE16 ->
  findChild pf (ObjNode16 n) key
  = if have_sse2 pf then findChildSSE n key else findChildBinary n key.
Proof. intros Hty. unfold findChild. cbn [header]. run_bind. by rewrite Hty. Qed.

Lemma findChild_Node48_negative (pf : Platform) (n : Node48.t) (key : Z) :
  type (Node48.node n) = NodeType_code NODE48 -> key < 0 ->
  findChild pf (ObjNode48 n) key = Undefined OutOfBounds.
Proof.
  intros Hty Hkey. unfold findChild. cbn [header]. run_bind. rewrite Hty.
  cbn [NodeType_code Z.eqb Pos.eqb as_Node48]. run_bind.
  by rewrite arr_get_negative.
Qed.

Lemma findChild_Node256_negative (pf : Platform) (n : Node256.t) (key : Z) :
  type (Node256.node n) = NodeType_code NODE256 -> key < 0 ->
  findChild pf (ObjNode256 n) key = Undefined OutOfBounds.
Proof.
  intros Hty Hkey. unfold findChild. cbn [header]. run_bind. rewrite Hty.
  cbn [NodeType_code Z.eqb Pos.eqb as_Node256]. run_bind.
  by rewrite arr_get_negative.
Qed.

Lemma is_char_upper (pf : Platform) (c : Z) : is_char pf c -> c <= 255.
Proof. unfold is_char. destruct (char_signed pf); lia. Qed.

(** ** Soundness and completeness of [findChild] *)

(** X4. For every well-formed inner node and key on which the lookup has
    defined behaviour (any Node4; a Node16 on the binary path; a Node16 on the
    vectorized path with at least one occupied slot; a Node48 or Node256 with
    a key whose [char] is not negative), [findChild] returns a result, and a
    non-null result is the child the node stores under the query key, never
    the child stored under another key nor the content of an unoccupied
    slot.  Nothing is said of a negative [char] on a Node48 or Node256, where
    the subscript is out of bounds. *)
Theorem findChild_returns_only_stored (pf : Platform) (node : Object) (key : Z) :
  well_formed pf node -> is_char pf key -> lookup_defined pf node key ->
  exists r, findChild pf node key = Ret r /\ (r <> NULL -> stores node key r).
Proof.
  intros Hwf Hkey Hdef. pose proof (is_char_upper pf key Hkey) as Hup.
  destruct node as [n|n|n|n| | |]; try done.
  - destruct Hwf as (Hty & Hk & Hch & Hcount & _).
    rewrite findChild_Node4_eq by done.
    destruct (findChild_loop4_spec n key ltac:(lia) ltac:(lia)
                (Z.to_nat (Node4.count n)) 0) as (r & -> & Hspec); [lia|lia|].
    exists r. split; [done|]. intros Hr.
    destruct Hspec as [(j & Hj & Hkj & Hcj & _)|[-> _]]; [|done].
    exists j. repeat split; try done; lia.
  - destruct Hwf as (Hty & (Hk & Hch & Hcount & Hchars) & Hsorted & _).
    rewrite findChild_Node16_eq by done. cbn [lookup_defined] in Hdef.
    destruct (have_sse2 pf).
    + specialize (Hdef eq_refl).
      destruct (findChildSSE_last_slot_only n key Hk Hch ltac:(lia))
        as (k & c & Hkl & Hcl & ->).
      rewrite Forall_lookup in Hchars.
      rewrite (byte_of_char_eqb pf key k Hkey (Hchars _ _ Hkl)).
      destruct (Z.eqb_spec key k) as [->|_].
      * exists c. split; [done|]. intros _.
        exists (Node16.count n - 1). repeat split; try done; lia.
      * exists NULL. split; [done|]. by intros [].
    + rewrite findChildBinary_eq by lia.
      destruct (findChildBinary_loop_sound n key (Z.to_nat (Node16.count n)) 0
                  (Node16.count n - 1)) as (r & -> & Hspec); try lia.
      exists r. split; [done|]. intros Hr. by destruct Hspec as [->|Hspec].
  - cbn [lookup_defined] in Hdef.
    destruct (findChild_Node48_nonnegative pf n key Hwf ltac:(lia))
      as (e & r & He & -> & Hiff & Hchild).
    exists r. split; [done|]. intros Hr.
    apply Hiff in Hr. destruct (Hchild Hr) as [_ Hc]. by exists e.
  - cbn [lookup_defined] in Hdef.
    destruct (findChild_Node256_nonnegative pf n key Hwf ltac:(lia)) as (r & Hr & ->).
    exists r. split; [done|]. intros Hnn. by split.
Qed.

Lemma node16_zero_key_well_formed : well_formed x86_64 (ObjNode16 node16_zero_key).
Proof.
  split; [reflexivity|]. split; [|split; [reflexivity|nodup_by_computation]].
  repeat split; try reflexivity; try (simpl; lia).
  unfold node16_zero_key. cbn [Node16.keys app replicate].
  repeat (constructor; [char_range|]). constructor.
Qed.

(** X4 at the vectorized lookup of key byte 5, the last occupied slot. *)
Lemma findChild_returns_only_stored_example :
  exists r, findChild x86_64 (ObjNode16 node16_zero_key) 5 = Ret r
            /\ (r <> NULL -> stores (ObjNode16 node16_zero_key) 5 r).
Proof.
  apply (findChild_returns_only_stored x86_64 (ObjNode16 node16_zero_key) 5).
  - apply node16_zero_key_well_formed.
  - char_range.
  - intros _. simpl. lia.
Defined.



(** ** The table classes over the whole byte range *)

(** X6. For a well-formed Node48 and a Node256 and every indexing byte from
    0 to 255, [findChild] is undefined (an out-of-bounds subscript) exactly
    when plain [char] is signed and the byte is 128 or more; in every other
    case it returns a result. *)
Theorem findChild_tables_defined_iff_nonnegative (pf : Platform) (n48 : Node48.t)
    (n256 : Node256.t) (b : Z) :
  Node48_well_formed n48 -> Node256_shaped n256 -> 0 <= b <= 255 ->
  if char_signed pf && (128 <=? b)
  then findChild pf (ObjNode48 n48) (to_char pf b) = Undefined OutOfBounds
       /\ findChild pf (ObjNode256 n256) (to_char pf b) = Undefined OutOfBounds
  else (exists r, findChild pf (ObjNode48 n48) (to_char pf b) = Ret r)
       /\ (exists r, findChild pf (ObjNode256 n256) (to_char pf b) = Ret r).
Proof.
  intros H48 H256 Hb.
  destruct (char_signed pf) eqn:Hpf; destruct (Z.leb_spec 128 b) as [Hhigh|Hlow];
    cbn [andb].
  - apply findChild_tables_upper_half; try done; [lia|apply H48|apply H256].
  - rewrite to_char_low by lia. split.
    + destruct (findChild_Node48_nonnegative pf n48 b H48 Hb) as (e & r & _ & Hr & _).
      eauto.
    + destruct (findChild_Node256_nonnegative pf n256 b H256 Hb) as (r & _ & Hr). eauto.
  - rewrite to_char_unsigned by done. split.
    + destruct (findChild_Node48_nonnegative pf n48 b H48 Hb) as (e & r & _ & Hr & _).
      eauto.
    + destruct (findChild_Node256_nonnegative pf n256 b H256 Hb) as (r & _ & Hr). eauto.
  - rewrite to_char_unsigned by done. split.
    + destruct (findChild_Node48_nonnegative pf n48 b H48 Hb) as (e & r & _ & Hr & _).
      eauto.
    + destruct (findChild_Node256_nonnegative pf n256 b H256 Hb) as (r & _ & Hr). eauto.
Qed.

(** X6 on x86-64 at byte 127, the last one that is in bounds there. *)
Lemma findChild_tables_defined_example :
  (exists r, findChild x86_64 (ObjNode48 node48_high_key) (to_char x86_64 127) = Ret r)
  /\ (exists r, findChild x86_64 (ObjNode256 node256_high_key) (to_char x86_64 127) = Ret r).
Proof.
  apply (findChild_tables_defined_iff_nonnegative x86_64 node48_high_key
           node256_high_key 127).
  - apply node48_high_key_well_formed.
  - split; reflexivity.
  - lia.
Defined.

(** X7. For a well-formed Node48 and an indexing byte whose [char] is not
    negative (any byte where [char] is unsigned, the bytes 0 to 127
    elsewhere), [findChild] returns [NULL] when the table entry of the byte is
    the sentinel, and otherwise the non-null child held by the slot the entry
    names. *)
Theorem findChild_Node48_sentinel_or_slot (pf : Platform) (n : Node48.t) (b : Z) :
  Node48_well_formed n -> 0 <= b <= 255 ->
  char_signed pf = false \/ b <= 127 ->
  exists e r,
    Node48.keys n !! Z.to_nat b = Some e
    /\ findChild pf (ObjNode48 n) (to_char pf b) = Ret r
    /\ (e = EMPTY_KEY -> r = NULL)
    /\ (e <> EMPTY_KEY -> r <> NULL /\ Node48.children n !! Z.to_nat e = Some r).
Proof.
  intros Hwf Hb Hdom.
  assert (to_char pf b = b) as ->.
  { destruct Hdom as [Hpf|Hlow]; [by apply to_char_unsigned|apply to_char_low; lia]. }
  destruct (findChild_Node48_nonnegative pf n b Hwf Hb) as (e & r & He & Hr & Hiff & Hchild).
  exists e, r. repeat split; try done.
  - intros ->. destruct (Z.eq_dec r NULL) as [|Hne]; [done|]. by apply Hiff in Hne.
  - by apply Hiff.
  - by apply Hchild.
Qed.

(** X7 on x86-64 at byte 65, whose table entry is the sentinel. *)
Lemma findChild_Node48_sentinel_example :
  exists e r,
    Node48.keys node48_high_key !! Z.to_nat 65 = Some e
    /\ findChild x86_64 (ObjNode48 node48_high_key) (to_char x86_64 65) = Ret r
    /\ (e = EMPTY_KEY -> r = NULL)
    /\ (e <> EMPTY_KEY ->
        r <> NULL /\ Node48.children node48_high_key !! Z.to_nat e = Some r).
Proof.
  apply (findChild_Node48_sentinel_or_slot x86_64 node48_high_key 65).
  - apply node48_high_key_well_formed.
  - lia.
  - right. lia.
Defined.

(** ** The Node4 scan: order and capacity *)

(** X8. When several occupied slots of a Node4 hold the query byte,
    [findChild] returns the child of the one with the lowest index. *)
Theorem findChild_Node4_first_match (pf : Platform) (n : Node4.t) (byte j c : Z) :
  type (Node4.node n) = NodeType_code NODE4 ->
  length (Node4.keys n) = 4%nat ->
  length (Node4.children n) = 4%nat ->
  0 <= Node4.count n <= 4 ->
  0 <= j < Node4.count n ->
  Node4.keys n !! Z.to_nat j = Some byte ->
  Node4.children n !! Z.to_nat j = Some c ->
  forallb (fun k => negb (k =? byte)) (take (Z.to_nat j) (Node4.keys n)) = true ->
  findChild pf (ObjNode4 n) byte = Ret c.
Proof.
  intros Hty Hk Hch Hcount Hj Hkj Hcj Hfirst.
  rewrite findChild_Node4_eq by done.
  destruct (findChild_loop4_spec n byte ltac:(lia) ltac:(lia)
              (Z.to_nat (Node4.count n)) 0) as (r & -> & Hr); [lia|lia|].
  f_equal. destruct Hr as [(j' & Hj' & Hkj' & Hcj' & Hfirst')|[_ Hnone]].
  - destruct (Z.lt_trichotomy j' j) as [Hlt|[->|Hgt]].
    + exfalso. rewrite forallb_forall in Hfirst. specialize (Hfirst byte).
      rewrite Z.eqb_refl in Hfirst.
      assert (false = true) by (apply Hfirst, list_elem_of_In, list_elem_of_lookup;
        exists (Z.to_nat j'); rewrite lookup_take_lt by lia; done).
      discriminate.
    + congruence.
    + by destruct (Hfirst' j ltac:(lia)).
  - by destruct (Hnone j ltac:(lia)).
Qed.

(** X8 at a node holding byte 7 in slots 0 and 1. *)
Lemma findChild_Node4_first_match_example :
  findChild x86_64 (ObjNode4 node4_duplicate_key) 7 = Ret 11.
Proof.
  apply (findChild_Node4_first_match x86_64 node4_duplicate_key 7 0 11);
    [reflexivity | reflexivity | reflexivity | simpl; lia | simpl; lia
    | reflexivity | reflexivity | reflexivity].
Defined.

Lemma findChild_loop4_overrun (n : Node4.t) (byte : Z) (fuel : nat) (i : Z) :
  length (Node4.keys n) = 4%nat ->
  forallb (fun k => negb (k =? byte)) (Node4.keys n) = true ->
  4 < Node4.count n -> 0 <= i <= 4 -> 5 - i <= Z.of_nat fuel ->
  findChild_loop4 fuel n byte i = Undefined OutOfBounds.
Proof.
  intros Hk Hnone Hcount. revert i.
  induction fuel as [|fuel IH]; intros i Hi Hfuel; [lia|]. simpl.
  destruct (Z.ltb_spec i (Node4.count n)); [|lia].
  destruct (Z.eq_dec i 4) as [->|Hlt].
  - assert (Node4.keys n !! Z.to_nat 4 = None) as Hout.
    { apply lookup_ge_None_2. rewrite Hk. simpl. lia. }
    unfold arr_get. cbn [Z.ltb Z.compare]. by rewrite Hout.
  - destruct (arr_get_in_bounds (Node4.keys n) i) as (k & -> & Hki); [lia|].
    run_bind. rewrite forallb_forall in Hnone.
    specialize (Hnone k ltac:(apply list_elem_of_In, list_elem_of_lookup; eauto)).
    apply negb_true_iff in Hnone. rewrite Hnone. apply IH; lia.
Qed.

(** X9. [findChild] trusts the count of a Node4: when the count exceeds the
    four slots and no slot holds the query byte, the scan reads [keys[4]],
    past the end of the array. *)
Theorem findChild_Node4_overrun (pf : Platform) (n : Node4.t) (byte : Z) :
  type (Node4.node n) = NodeType_code NODE4 ->
  length (Node4.keys n) = 4%nat ->
  4 < Node4.count n ->
  forallb (fun k => negb (k =? byte)) (Node4.keys n) = true ->
  findChild pf (ObjNode4 n) byte = Undefined OutOfBounds.
Proof.
  intros Hty Hk Hcount Hnone. rewrite findChild_Node4_eq by done.
  apply findChild_loop4_overrun; try done; lia.
Qed.

(** X9 at a node with count 5. *)
Lemma findChild_Node4_overrun_example :
  findChild x86_64 (ObjNode4 node4_overfull) 9 = Undefined OutOfBounds.
Proof.
  apply (findChild_Node4_overrun x86_64 node4_overfull 9);
    [reflexivity | reflexivity | simpl; lia | reflexivity].
Defined.

(** ** The empty Node16 *)

(** X10. On a Node16 with no occupied slot, [findChild] returns [NULL] where
    it is compiled without [__SSE2__], and is undefined where it is compiled
    with it: the vectorized lookup shifts by [count - 1 = -1]. *)
Theorem findChild_Node16_empty (pf : Platform) (n : Node16.t) (byte : Z) :
  type (Node16.node n) = NodeType_code NODE16 ->
  length (Node16.keys n) = 16%nat ->
  Node16.count n = 0 ->
  findChild pf (ObjNode16 n) byte
  = if have_sse2 pf then Undefined BadShift else Ret NULL.
Proof.
  intros Hty Hk Hcount. rewrite findChild_Node16_eq by done.
  destruct (findChildSSE_differs_on_empty n byte Hk Hcount) as [-> ->]. done.
Qed.

(** X10 on x86-64. *)
Lemma findChild_Node16_empty_example :
  findChild x86_64 (ObjNode16 node16_empty) 65 = Undefined BadShift.
Proof.
  apply (findChild_Node16_empty x86_64 node16_empty 65); reflexivity.
Defined.

(** ** Initialisation and the store *)

Lemma createRootNode_cases (pf : Platform) (s : State) :
  (exists g, grants s = true :: g
             /\ createRootNode pf s
                = (Z.pos (brk s),
                   {| heap := <[brk s := ObjNode4 (empty_root pf)]> (heap s);
                      brk := Pos.succ (brk s); grants := g |}))
  \/ ((forall g, grants s <> true :: g)
      /\ createRootNode pf s = (NULL, {| heap := heap s; brk := brk s;
                                         grants := tail (grants s) |})).
Proof.
  destruct (grants s) as [|[|] g] eqn:Hg.
  - right. split; [done|]. unfold createRootNode, calloc_Node4, allocate. rewrite Hg.
    cbn [Z.eqb NULL tail]. f_equal. destruct s. simpl in *. by subst.
  - left. exists g. split; [done|]. by apply createRootNode_granted.
  - right. split; [congruence|]. unfold createRootNode, calloc_Node4, allocate.
    by rewrite Hg.
Qed.

Lemma allocated_below_brk_fresh (s : State) :
  allocated_below_brk s -> heap s !! brk s = None.
Proof.
  intros Hs. destruct (heap s !! brk s) as [o|] eqn:E; [|done].
  specialize (Hs _ _ E). lia.
Qed.

Lemma createRootNode_frame (pf : Platform) (s s' : State) (root : Z) :
  allocated_below_brk s -> createRootNode pf s = (root, s') ->
  deref s root = Undefined InvalidPointer
  /\ (root = NULL -> heap s' = heap s)
  /\ (forall a o, heap s !! a = Some o -> heap s' !! a = Some o)
  /\ allocated_below_brk s'.
Proof.
  intros Hs Hc.
  destruct (createRootNode_cases pf s) as [(g & Hg & Heq)|[Hg Heq]];
    rewrite Heq in Hc; injection Hc as <- <-; cbn [heap brk].
  - repeat split.
    + unfold deref. by rewrite allocated_below_brk_fresh.
    + discriminate.
    + intros a o Ha. pose proof (Hs _ _ Ha). rewrite lookup_insert_ne by lia. done.
    + intros a o. cbn [heap brk]. rewrite lookup_insert.
      case_decide as Ha.
      * intros _. lia.
      * intros Hl. pose proof (Hs _ _ Hl). lia.
  - repeat split; try done.
Qed.

(** X11. When the allocator grants both requests, the tree that
    [initializeAdaptiveRadixTree] returns is non-null and of size 0, its root
    is a non-null node distinct from the tree, and [findChild] on the root
    returns [NULL] for every byte: the new tree has no child. *)
Theorem initializeAdaptiveRadixTree_empty_tree (pf : Platform) (s : State)
    (g : list bool) (byte : Z) :
  grants s = true :: true :: g ->
  exists tree root s',
    initializeAdaptiveRadixTree pf s = (tree, s')
    /\ tree <> NULL /\ root <> NULL /\ root <> tree
    /\ deref s' tree = Ret (ObjART {| ART.root := root; ART.size := 0 |})
    /\ findChild_at pf s' root byte = Ret NULL.
Proof.
  intros Hg. unfold initializeAdaptiveRadixTree, malloc, allocate. rewrite Hg.
  cbn [Z.eqb NULL]. rewrite (createRootNode_granted _ _ g) by done.
  cbn [heap brk grants].
  exists (Z.pos (brk s)), (Z.pos (Pos.succ (brk s))). eexists.
  split; [reflexivity|].
  unfold findChild_at, deref, store. cbn [heap].
  split; [done|]. split; [done|]. split; [intros [= H]; lia|]. split.
  - by rewrite lookup_insert_eq.
  - rewrite lookup_insert_ne by lia. by rewrite lookup_insert_eq.
Qed.

(** X11 in an empty store, at byte 97. *)
Lemma initializeAdaptiveRadixTree_empty_tree_example :
  exists tree root s',
    initializeAdaptiveRadixTree x86_64 (fresh_state [true; true]) = (tree, s')
    /\ tree <> NULL /\ root <> NULL /\ root <> tree
    /\ deref s' tree = Ret (ObjART {| ART.root := root; ART.size := 0 |})
    /\ findChild_at x86_64 s' root 97 = Ret NULL.
Proof.
  apply (initializeAdaptiveRadixTree_empty_tree x86_64 (fresh_state [true; true]) [] 97).
  reflexivity.
Defined.

(** X12. [initializeAdaptiveRadixTree] returns [NULL] exactly when the
    allocator does not grant its first request, and it then leaves the store
    as it was and makes no second request. *)
Theorem initializeAdaptiveRadixTree_NULL_iff (pf : Platform) (s : State) :
  (fst (initializeAdaptiveRadixTree pf s) = NULL <-> forall g, grants s <> true :: g)
  /\ (fst (initializeAdaptiveRadixTree pf s) = NULL ->
      heap (snd (initializeAdaptiveRadixTree pf s)) = heap s
      /\ grants (snd (initializeAdaptiveRadixTree pf s)) = tail (grants s)).
Proof.
  unfold initializeAdaptiveRadixTree, malloc, allocate.
  destruct (grants s) as [|[|] g] eqn:Hg; cbn [Z.eqb NULL fst snd].
  - split; [|by rewrite Hg]. split; [done|done].
  - destruct (createRootNode pf _) as [root s2]. cbn [fst snd]. split.
    + split; [discriminate|]. intros H. by destruct (H g).
    + discriminate.
  - split; [|done]. split; [congruence|done].
Qed.

(** X13. In a store whose allocated addresses are all below the next free
    one, the pointer [createRootNode] returns was not allocated before, a
    refused request leaves the store as it was, every object already in the
    store is still there afterwards, and the store keeps its shape. *)
Theorem createRootNode_fresh_and_frame (pf : Platform) (s s' : State) (root : Z) :
  allocated_below_brk s -> createRootNode pf s = (root, s') ->
  deref s root = Undefined InvalidPointer
  /\ (root = NULL -> heap s' = heap s)
  /\ (forall a o, heap s !! a = Some o -> heap s' !! a = Some o)
  /\ allocated_below_brk s'.
Proof. apply createRootNode_frame. Qed.

Lemma state_with_leaf_below_brk (g : list bool) : allocated_below_brk (state_with_leaf g).
Proof.
  intros a o H. cbn [state_with_leaf heap brk] in *.
  apply lookup_singleton_Some in H as [<- _]. reflexivity.
Qed.

(** X13 in a store that holds a leaf. *)
Lemma createRootNode_fresh_and_frame_example :
  deref (state_with_leaf [true]) 2 = Undefined InvalidPointer
  /\ (2 = NULL ->
      heap (snd (createRootNode x86_64 (state_with_leaf [true])))
      = heap (state_with_leaf [true]))
  /\ (forall a o, heap (state_with_leaf [true]) !! a = Some o ->
                  heap (snd (createRootNode x86_64 (state_with_leaf [true]))) !! a = Some o)
  /\ allocated_below_brk (snd (createRootNode x86_64 (state_with_leaf [true]))).
Proof.
  apply (createRootNode_fresh_and_frame x86_64 (state_with_leaf [true])
           (snd (createRootNode x86_64 (state_with_leaf [true]))) 2).
  - apply state_with_leaf_below_brk.
  - reflexivity.
Defined.

(** X14. In a store whose allocated addresses are all below the next free
    one, [initializeAdaptiveRadixTree] writes only to what it allocates:
    every object already in the store is still there afterwards, whatever the
    allocator answers, and the store keeps its shape. *)
Theorem initializeAdaptiveRadixTree_frame (pf : Platform) (s : State) :
  allocated_below_brk s ->
  (forall a o, heap s !! a = Some o ->
               heap (snd (initializeAdaptiveRadixTree pf s)) !! a = Some o)
  /\ allocated_below_brk (snd (initializeAdaptiveRadixTree pf s)).
Proof.
  intros Hs. unfold initializeAdaptiveRadixTree, malloc, allocate.
  destruct (grants s) as [|[|] g] eqn:Hg; cbn [Z.eqb NULL snd]; try done.
  set (s1 := {| heap := <[brk s := ObjRaw]> (heap s); brk := Pos.succ (brk s);
                grants := g |}).
  assert (Hs1 : allocated_below_brk s1).
  { intros a o. subst s1. cbn [heap brk]. rewrite lookup_insert.
    case_decide as Ha.
    - intros _. lia.
    - intros Hl. pose proof (Hs _ _ Hl). lia. }
  destruct (createRootNode pf s1) as [root s2] eqn:Hc.
  destruct (createRootNode_frame pf s1 s2 root Hs1 Hc) as (_ & _ & Hframe & Hs2).
  cbn [snd store]. split.
  - intros a o Ha. pose proof (Hs _ _ Ha). cbn [heap].
    rewrite lookup_insert_ne by lia. apply Hframe. subst s1. cbn [heap].
    rewrite lookup_insert_ne by lia. done.
  - intros a o. cbn [heap brk]. rewrite lookup_insert.
    case_decide as Ha.
    + intros _. subst a.
      assert (brk s1 <= brk s2)%positive; [|subst s1; cbn [brk] in *; lia].
      destruct (createRootNode_cases pf s1) as [(g' & _ & Heq)|[_ Heq]];
        rewrite Heq in Hc; injection Hc as <- <-; subst s1; cbn [brk]; lia.
    + apply Hs2.
Qed.

(** X14 in a store that holds a leaf, with the second request refused. *)
Lemma initializeAdaptiveRadixTree_frame_example :
  (forall a o, heap (state_with_leaf [true; false]) !! a = Some o ->
               heap (snd (initializeAdaptiveRadixTree x86_64 (state_with_leaf [true; false])))
                 !! a = Some o)
  /\ allocated_below_brk
       (snd (initializeAdaptiveRadixTree x86_64 (state_with_leaf [true; false]))).
Proof.
  apply (initializeAdaptiveRadixTree_frame x86_64 (state_with_leaf [true; false])).
  apply state_with_leaf_below_brk.
Defined.

(** X15. The node a successful [createRootNode] leaves in the store is a
    well-formed Node4: tagged NODE4, with four key slots (each a [char] of
    the platform) and four child slots, a count of 0, an empty prefix of
    length 0 in a 32-byte buffer, and no child stored under any key. *)
Theorem createRootNode_well_formed (pf : Platform) (s s' : State) (root : Z) :
  createRootNode pf s = (root, s') -> root <> NULL ->
  exists n,
    deref s' root = Ret (ObjNode4 n)
    /\ well_formed pf (ObjNode4 n)
    /\ Forall (is_char pf) (Node4.keys n)
    /\ Z.of_nat (length (Node4.prefix n)) = MAX_PREFIX_LENGTH
    /\ Node4.prefixLen n = 0
    /\ forall key child, ~ stores (ObjNode4 n) key child.
Proof.
  intros Hc Hroot. exists (empty_root pf).
  split; [by apply (createRootNode_inv pf s)|].
  split; [|split; [|split; [|split]]]; try reflexivity.
  - repeat split; try reflexivity; try (simpl; lia). apply NoDup_nil_2.
  - apply Forall_replicate, to_char_is_char.
  - intros key child (i & Hi & _). simpl in Hi. lia.
Qed.

(** X15 in an empty store. *)
Lemma createRootNode_well_formed_example :
  exists n,
    deref (snd (createRootNode x86_64 (fresh_state [true]))) 1 = Ret (ObjNode4 n)
    /\ well_formed x86_64 (ObjNode4 n)
    /\ Forall (is_char x86_64) (Node4.keys n)
    /\ Z.of_nat (length (Node4.prefix n)) = MAX_PREFIX_LENGTH
    /\ Node4.prefixLen n = 0
    /\ forall key child, ~ stores (ObjNode4 n) key child.
Proof.
  apply (createRootNode_well_formed x86_64 (fresh_state [true])
           (snd (createRootNode x86_64 (fresh_state [true]))) 1);
    [reflexivity | discriminate].
Defined.

(** At [INT_MIN] the subtraction [count - 1] overflows. *)
Lemma findChildBinary_count_INT_MIN (n : Node16.t) (byte : Z) :
  Node16.count n = INT_MIN -> findChildBinary n byte = Undefined Overflow.
Proof. intros Hc. unfold findChildBinary. by rewrite Hc. Qed.

(** ** The sentinel value as a stored key byte *)



(** Outside the vectorized Node16 and the signed subscript of the table
    classes, the lookup tells a stored key byte 255 from its absence by the
    presence indicator of the class (the count, the table entry, the child
    pointer), whatever the empty key slots hold: the child stored under 255
    is returned, and [NULL] is returned when none is stored. *)
Lemma findChild_tells_byte_255_by_presence (pf : Platform) (node : Object) :
  well_formed pf node -> vectorized pf node = false ->
  (indexed_by_key node = true -> char_signed pf = false) ->
  (forall child, stores node (to_char pf 255) child ->
                 findChild pf node (to_char pf 255) = Ret child)
  /\ ((forall child, ~ stores node (to_char pf 255) child) ->
      findChild pf node (to_char pf 255) = Ret NULL).
Proof.
  intros Hwf Hvec Hidx. set (key := to_char pf 255).
  destruct node as [n|n|n|n| | |]; try done.
  - destruct Hwf as (Hty & Hk & Hch & Hcount & Hnd).
    rewrite findChild_Node4_eq by done.
    destruct (findChild_loop4_spec n key ltac:(lia) ltac:(lia)
                (Z.to_nat (Node4.count n)) 0) as (r & -> & Hr); [lia|lia|].
    assert (Hlook : slot_lookup (Node4.keys n) (Node4.children n) (Node4.count n) key r).
    { destruct Hr as [(j & Hj & Hkj & Hcj & _)|[-> Hnone]].
      - left. exists j. repeat split; try done; lia.
      - right. split; [done|]. intros k Hk'. apply Hnone. lia. }
    split.
    + intros child (i & Hi & Hki & Hci). f_equal.
      by apply (occupied_slot_unique (Node4.keys n) (Node4.children n)
                  (Node4.count n) key r child i).
    + intros Hnone. f_equal. destruct Hlook as [Hst|[-> _]]; [|done].
      by destruct (Hnone r).
  - destruct Hwf as (Hty & (Hk & Hch & Hcount & _) & Hsorted & Hnd).
    simpl in Hvec. rewrite findChild_Node16_eq, Hvec by done.
    rewrite findChildBinary_eq by lia.
    destruct (findChildBinary_loop_spec n key ltac:(lia) ltac:(lia) Hsorted
                (Z.to_nat (Node16.count n)) 0 (Node16.count n - 1))
      as (r & -> & Hlook); try lia.
    split.
    + intros child (i & Hi & Hki & Hci). f_equal.
      by apply (occupied_slot_unique (Node16.keys n) (Node16.children n)
                  (Node16.count n) key r child i).
    + intros Hnone. f_equal. destruct Hlook as [Hst|[-> _]]; [|done].
      by destruct (Hnone r).
  - assert (key = 255) as -> by (apply to_char_unsigned; [by apply Hidx|lia]).
    destruct (findChild_Node48_nonnegative pf n 255 Hwf ltac:(lia))
      as (e & r & He & -> & Hiff & Hchild).
    split.
    + intros child (e' & He' & Hne & Hc).
      assert (e' = e) as -> by congruence.
      destruct (Hchild Hne) as [_ Hr]. congruence.
    + intros Hnone. f_equal. destruct (Z.eq_dec r NULL) as [|Hr]; [done|].
      apply Hiff in Hr. destruct (Hchild Hr) as [_ Hc].
      destruct (Hnone r). by exists e.
  - assert (key = 255) as -> by (apply to_char_unsigned; [by apply Hidx|lia]).
    destruct (findChild_Node256_nonnegative pf n 255 Hwf ltac:(lia)) as (r & Hr & ->).
    split.
    + intros child [Hc _]. congruence.
    + intros Hnone. f_equal. destruct (Z.eq_dec r NULL) as [|Hnn]; [done|].
      by destruct (Hnone r).
Qed.

(** A Node4 holding key byte 255 next to three empty slots filled with the
    sentinel returns its child, on every platform; the empty root, whose
    four slots hold the same value, returns [NULL]. *)
Lemma findChild_Node4_key_255_by_count (pf : Platform) :
  Node4.keys (node4_key_255 pf) = Node4.keys (empty_root pf)
  /\ findChild pf (ObjNode4 (node4_key_255 pf)) (to_char pf 255) = Ret 77
  /\ findChild pf (ObjNode4 (empty_root pf)) (to_char pf 255) = Ret NULL.
Proof.
  destruct pf as [[|] [|]]; repeat split; reflexivity.
Qed.

